(** * Call signaling server: the accept-call coordination core

    A shallow embedding of [src/server.js] (an Express application over the
    Firebase Admin SDK) and the properties of its two POST handlers.

    - [JS]       the JavaScript values the handlers manipulate (parsed JSON
                 bodies, Realtime Database snapshots) and the few operators
                 the source applies to them;
    - [Server]   the handlers themselves, written in a small monad that
                 threads the database contents and the trace of external
                 calls, with JavaScript exceptions as a second result; the
                 database is the linearizable store of the specification;
    - [Startup]  the script around the handlers, up to [app.listen];
    - [Sdk]      the accept handler over an SDK of which nothing is
                 assumed, for the properties that hold whatever the SDK
                 does, and the SDK that starts a transaction on the value
                 it holds locally;
    - then the properties, endpoint by endpoint. *)

From Stdlib Require Import Floats.PrimFloat.
From Stdlib Require Import Strings.String Strings.Ascii DecimalString.
From stdpp Require Import gmap strings list.

Set Warnings "-register-all".

(* ================================================================== *)
(** ** JavaScript values *)
(* ================================================================== *)

Module JS.

(** What [JSON.parse] (through [express.json()]) and [snapshot.val()] can
    produce, plus [undefined], which reading a missing property yields.
    An object is the list of its own enumerable properties in the order
    [for ... in] visits them. *)
Inductive value : Type :=
  | JUndef
  | JNull
  | JBool (b : bool)
  | JNum (n : float)
  | JStr (s : string)
  | JArr (elems : list value)
  | JObj (props : list (string * value)).

(** [!v] is [negb (truthy v)]. *)
Definition truthy (v : value) : bool :=
  match v with
  | JUndef | JNull => false
  | JBool b => b
  | JNum n => negb (PrimFloat.eqb n PrimFloat.zero || PrimFloat.is_nan n)
  | JStr s => negb (String.eqb s "")
  | JArr _ | JObj _ => true
  end.

Definition nullish (v : value) : bool :=
  match v with
  | JUndef | JNull => true
  | _ => false
  end.

(** [a === b].  Arrays and objects are compared by identity; every use in the
    source compares values of different origin (request against snapshot,
    snapshot against literal, property key against request), so two of them
    are never the same object. *)
Definition strict_eq (a b : value) : bool :=
  match a, b with
  | JUndef, JUndef => true
  | JNull, JNull => true
  | JBool x, JBool y => Bool.eqb x y
  | JNum x, JNum y => PrimFloat.eqb x y
  | JStr x, JStr y => String.eqb x y
  | _, _ => false
  end.

Definition index_key (i : nat) : string :=
  NilZero.string_of_uint (Nat.to_uint i).

(** Own enumerable properties: those of an object, the indices of an array,
    the indices of a string (one-character strings); none for the rest. *)
Definition own_props (v : value) : list (string * value) :=
  match v with
  | JObj props => props
  | JArr elems => imap (fun i x => (index_key i, x)) elems
  | JStr s =>
      imap (fun i c => (index_key i, JStr (String c EmptyString)))
           (list_ascii_of_string s)
  | _ => []
  end.

Definition keys (v : value) : list string := (own_props v).*1.

Fixpoint assoc (k : string) (props : list (string * value)) : option value :=
  match props with
  | [] => None
  | (k', x) :: rest => if String.eqb k' k then Some x else assoc k rest
  end.

(** [v.k] and [v[k]] for [v] other than [null] and [undefined].  Only own
    enumerable properties are modelled: the names the handlers read are
    fixed field names and keys produced by [for ... in], none of which is a
    built-in property of arrays or strings. *)
Definition get_prop (v : value) (k : string) : value :=
  default JUndef (assoc k (own_props v)).

Fixpoint assoc_set (k : string) (x : value) (props : list (string * value))
  : list (string * value) :=
  match props with
  | [] => [(k, x)]
  | (k', y) :: rest =>
      if String.eqb k' k then (k', x) :: rest else (k', y) :: assoc_set k x rest
  end.

(** [v.k = x] on an object.  On a primitive the assignment is dropped (the
    module is not in strict mode); an array is left as it is here, since the
    only assignments of the source are to a value whose [status] property
    was found to be ['ringing'], which makes it an object (see
    [status_found_object]). *)
Definition set_prop (v : value) (k : string) (x : value) : value :=
  match v with
  | JObj props => JObj (assoc_set k x props)
  | _ => v
  end.

Definition is_array (v : value) : bool :=
  match v with
  | JArr _ => true
  | _ => false
  end.

Definition elements (v : value) : list value :=
  match v with
  | JArr elems => elems
  | _ => []
  end.

Section Coercion.
(** [Number.prototype.toString], left to the engine. *)
Variable number_to_string : float -> string.

(** The string a template literal [`${v}`] interpolates, for a value none
    of whose objects has an own [toString] property; [Sdk.template] below
    is the interpolation that can throw. *)
Fixpoint to_template (v : value) : string :=
  match v with
  | JUndef => "undefined"
  | JNull => "null"
  | JBool true => "true"
  | JBool false => "false"
  | JNum n => number_to_string n
  | JStr s => s
  | JArr elems =>
      String.concat ","
        (map (fun x => match x with
                       | JUndef | JNull => EmptyString
                       | _ => to_template x
                       end) elems)
  | JObj _ => "[object Object]"
  end.
End Coercion.

End JS.
Export JS.

(* ================================================================== *)
(** ** The server *)
(* ================================================================== *)

(** What a JavaScript expression can throw here: the [TypeError] of reading
    a property of [null] or [undefined], and the rejection of a call into
    the Firebase SDK. *)
Inductive exn : Type :=
  | TypeError (target : value) (reading : string)
  | Rejected (message : string).

Inductive result (A : Type) : Type :=
  | Ok (a : A)
  | Throw (e : exn).
Arguments Ok {A} a.
Arguments Throw {A} e.

(** One entry of [BatchResponse.responses]. *)
Record send_response : Type := SendResponse {
  success : bool;
  messageId : option string;
  error : option string
}.

Record batch_response : Type := BatchResponse {
  responses : list send_response
}.

(** The argument of [admin.messaging().sendEachForMulticast]. *)
Record message : Type := Message {
  data : list (string * value);
  tokens : list value;
  priority : string;
  android_priority : string;
  content_available : bool
}.

Inductive level : Type := Log | Warn | Error.

Inductive console_arg : Type :=
  | ArgBatch (r : batch_response)
  | ArgResponses (rs : list send_response)
  | ArgExn (e : exn).

(** The calls that leave the process, with what came back. *)
Inductive event : Type :=
  | EvTransaction (ref : string) (outcome : result bool)
  | EvOnce (ref : string) (outcome : result value)
  | EvSend (m : message) (outcome : result batch_response)
  | EvConsole (lvl : level) (text : string) (arg : option console_arg).

(** The database is a map from locations to values; a location without a
    value reads as [null].  Locations are opaque keys: that one location
    can lie inside another is not modelled. *)
Record world : Type := World {
  store : gmap string value;
  trace : list event
}.

(** The behaviour of the collaborators during one request: whether the
    database calls reject, and what the push transport answers. *)
Record services : Type := Services {
  transaction_rejects : option exn;
  once_rejects : option exn;
  sendEachForMulticast : message -> result batch_response
}.

Inductive json_body : Type :=
  | ErrorBody (error : string)
  | ErrorDetails (error : string) (details : exn)
  | RingingSent (message : string) (successCount failureCount : nat)
                (details : list send_response)
  | CallAccepted (message : string)
                 (callId token channel acceptedByDeviceId : value)
  | Text (body : string).

Record response : Type := Response {
  status : nat;
  json : json_body
}.

Record transaction_result : Type := TransactionResult {
  committed : bool;
  snapshot : value
}.

(** *** State, trace and exceptions *)

Definition M (A : Type) : Type := world -> result A * world.

Definition ret {A} (a : A) : M A := fun w => (Ok a, w).

Definition throw {A} (e : exn) : M A := fun w => (Throw e, w).

Definition bind {A B} (m : M A) (k : A -> M B) : M B :=
  fun w =>
    match m w with
    | (Ok a, w') => k a w'
    | (Throw e, w') => (Throw e, w')
    end.

Definition try_catch {A} (m : M A) (handler : exn -> M A) : M A :=
  fun w =>
    match m w with
    | (Ok a, w') => (Ok a, w')
    | (Throw e, w') => handler e w'
    end.

Notation "x <~ c1 ';;' c2" := (bind c1 (fun x => c2))
  (at level 100, c1 at next level, right associativity, only parsing).
Notation "c1 '>>' c2" := (bind c1 (fun _ => c2))
  (at level 100, right associativity, only parsing).

Definition emit (e : event) : M unit :=
  fun w => (Ok tt, {| store := store w; trace := trace w ++ [e] |}).

Definition console (lvl : level) (text : string) (arg : option console_arg)
  : M unit :=
  emit (EvConsole lvl text arg).

(** [v.k] in a position where [v] may be [null] or [undefined]. *)
Definition prop (v : value) (k : string) : M value :=
  if nullish v then throw (TypeError v k) else ret (get_prop v k).

(** [const { ... } = req.body]. *)
Definition destructure (body : value) : M unit :=
  if nullish body then throw (TypeError body "") else ret tt.

(** [ref.transaction(update)] on the linearizable store of the
    specification: the update function is applied, atomically, to the
    value at the location; [undefined] ([None]) aborts, any other value is
    written.  The result carries [committed] and the value at the location
    afterwards.  This is the SDK when the value it holds locally for the
    location is the one the database holds; [Sdk.cold_transaction] below
    is the SDK that holds nothing. *)
Definition transaction (env : services) (ref : string)
    (update : value -> M (option value)) : M transaction_result :=
  match transaction_rejects env with
  | Some e => emit (EvTransaction ref (Throw e)) >> throw e
  | None =>
      fun w =>
        let currentData := default JNull (store w !! ref) in
        match update currentData w with
        | (Throw e, w') => (emit (EvTransaction ref (Throw e)) >> throw e) w'
        | (Ok None, w') =>
            (emit (EvTransaction ref (Ok false)) >>
             ret {| committed := false; snapshot := currentData |}) w'
        | (Ok (Some newData), w') =>
            (emit (EvTransaction ref (Ok true)) >>
             ret {| committed := true; snapshot := newData |})
              {| store := <[ref := newData]> (store w'); trace := trace w' |}
        end
  end.

(** [(await ref.once('value')).val()]. *)
Definition once (env : services) (ref : string) : M value :=
  match once_rejects env with
  | Some e => emit (EvOnce ref (Throw e)) >> throw e
  | None =>
      fun w =>
        let v := default JNull (store w !! ref) in
        (emit (EvOnce ref (Ok v)) >> ret v) w
  end.

Definition send (env : services) (m : message) : M batch_response :=
  match sendEachForMulticast env m with
  | Ok r => emit (EvSend m (Ok r)) >> ret r
  | Throw e => emit (EvSend m (Throw e)) >> throw e
  end.

Section Server.
Variable number_to_string : float -> string.

Abbreviation tpl := (to_template number_to_string).

(** *** POST /sendRingingNotification *)

(** The [message] constant of the handler. *)
Definition ringingMessage (type callerId callId channel token : value)
    (fcmTokens : value) : message :=
  {| data := [("type", type); ("callerId", callerId);
              ("callId", callId); ("channel", channel);
              ("token", token)];
     tokens := elements fcmTokens;
     priority := "high";
     android_priority := "high";
     content_available := true |}.

Definition sendRingingNotification (env : services) (body : value)
  : M response :=
  destructure body >>
  let fcmTokens := get_prop body "fcmTokens" in
  let callerId := get_prop body "callerId" in
  let callId := get_prop body "callId" in
  let type := get_prop body "type" in
  let channel := get_prop body "channel" in
  let token := get_prop body "token" in
  if negb (truthy fcmTokens) || negb (is_array fcmTokens)
     || (length (elements fcmTokens) =? 0)
  then
    ret {| status := 400;
           json := ErrorBody
             "fcmTokens (array) is required and must not be empty" |}
  else if negb (truthy callerId) || negb (truthy callId)
          || negb (truthy type) || negb (truthy channel)
          || negb (truthy token)
  then
    ret {| status := 400;
           json := ErrorBody
             "callerId, callId, type, channel, and token are all required for a ringing notification." |}
  else
    let message :=
      ringingMessage type callerId callId channel token fcmTokens in
    try_catch
      (response <~ send env message ;;
       console Log "Successfully sent multicast ringing message:"
               (Some (ArgBatch response)) >>
       let successfulSends :=
         length (List.filter (fun r => success r) (responses response)) in
       let failedSends :=
         List.filter (fun r => negb (success r)) (responses response) in
       (if 0 <? length failedSends
        then console Warn "Failed to send ringing to some tokens:"
                     (Some (ArgResponses failedSends))
        else ret tt) >>
       ret {| status := 200;
              json := RingingSent "Ringing notifications sent successfully"
                        successfulSends (length failedSends)
                        (responses response) |})
      (fun error =>
         console Error "Error sending multicast ringing message:"
                 (Some (ArgExn error)) >>
         ret {| status := 500;
                json := ErrorDetails "Failed to send ringing notifications"
                          error |}).

(** *** POST /acceptCall *)

(** The paths of lines 103 and 137.  [db.ref] is taken to accept them; a
    [db.ref] that throws is in [Sdk]. *)
Definition activeCallRef (currentUid : value) : string :=
  "calls/" ++ tpl currentUid ++ "/activeCall".

Definition devicesRef (currentUid : value) : string :=
  "calls/" ++ tpl currentUid ++ "/devices".

(** The update function handed to [activeCallRef.transaction]. *)
Definition accept_update (callId acceptedByDeviceId currentData : value)
  : M (option value) :=
  if negb (truthy currentData)
     || negb (strict_eq (get_prop currentData "callId") callId)
  then
    console Log ("Transaction aborted for callId " ++ tpl callId
                 ++ ": Node missing or ID mismatch.") None >>
    ret None
  else if negb (strict_eq (get_prop currentData "status") (JStr "ringing"))
  then
    console Log ("Transaction aborted for callId " ++ tpl callId
                 ++ ": Call status is "
                 ++ tpl (get_prop currentData "status")
                 ++ ", not 'ringing'.") None >>
    ret None
  else
    let currentData := set_prop currentData "status" (JStr "in_progress") in
    let currentData :=
      set_prop currentData "acceptedByDeviceId" acceptedByDeviceId in
    console Log ("Call " ++ tpl callId ++ " accepted by "
                 ++ tpl acceptedByDeviceId ++ ".") None >>
    ret (Some currentData).

(** The [for (const deviceIdKey in allDevices)] loop. *)
Fixpoint collect_tokens (allDevices acceptedByDeviceId : value)
    (deviceIdKeys : list string) (fcmTokensToNotify : list value)
  : M (list value) :=
  match deviceIdKeys with
  | [] => ret fcmTokensToNotify
  | deviceIdKey :: rest =>
      if negb (strict_eq (JStr deviceIdKey) acceptedByDeviceId)
      then
        fcmToken <~ prop (get_prop allDevices deviceIdKey) "fcmToken" ;;
        if truthy fcmToken
        then collect_tokens allDevices acceptedByDeviceId rest
               (fcmTokensToNotify ++ [fcmToken])
        else collect_tokens allDevices acceptedByDeviceId rest
               fcmTokensToNotify
      else collect_tokens allDevices acceptedByDeviceId rest
             fcmTokensToNotify
  end.

Definition ringEndedMessage (callId acceptedByDeviceId : value)
    (fcmTokensToNotify : list value) : message :=
  {| data := [("type", JStr "ring_ended"); ("callId", callId);
              ("acceptedByDeviceId", acceptedByDeviceId)];
     tokens := fcmTokensToNotify;
     priority := "high";
     android_priority := "high";
     content_available := true |}.

(** The [if (allDevices) { ... }] block. *)
Definition notify_others (env : services)
    (callId acceptedByDeviceId allDevices : value) : M unit :=
  if truthy allDevices then
    fcmTokensToNotify <~
      collect_tokens allDevices acceptedByDeviceId (keys allDevices) [] ;;
    if 0 <? length fcmTokensToNotify then
      try_catch
        (fcmResponse <~
           send env (ringEndedMessage callId acceptedByDeviceId
                       fcmTokensToNotify) ;;
         console Log "Successfully sent ring_ended multicast message:"
                 (Some (ArgBatch fcmResponse)))
        (fun fcmError =>
           console Error "Error sending ring_ended multicast message:"
                   (Some (ArgExn fcmError)))
    else ret tt
  else ret tt.

Definition acceptCall (env : services) (body : value) : M response :=
  destructure body >>
  let callId := get_prop body "callId" in
  let acceptedByDeviceId := get_prop body "acceptedByDeviceId" in
  let currentUid := get_prop body "currentUid" in
  let token := get_prop body "token" in
  let channel := get_prop body "channel" in
  if negb (truthy callId) || negb (truthy acceptedByDeviceId)
     || negb (truthy currentUid) || negb (truthy token)
     || negb (truthy channel)
  then
    ret {| status := 400;
           json := ErrorBody
             "callId, acceptedByDeviceId, currentUid, token, and channel are all required." |}
  else
    try_catch
      (transactionResult <~
         transaction env (activeCallRef currentUid)
           (accept_update callId acceptedByDeviceId) ;;
       if negb (committed transactionResult) then
         if truthy (snapshot transactionResult)
            && strict_eq (get_prop (snapshot transactionResult) "status")
                         (JStr "in_progress")
         then
           ret {| status := 409;
                  json := ErrorBody
                    "Call already accepted by another device." |}
         else
           ret {| status := 409;
                  json := ErrorBody
                    "Call no longer active or invalid call ID." |}
       else
         allDevices <~ once env (devicesRef currentUid) ;;
         notify_others env callId acceptedByDeviceId allDevices >>
         ret {| status := 200;
                json := CallAccepted "Call accepted successfully"
                          callId token channel acceptedByDeviceId |})
      (fun error =>
         console Error "Error during call acceptance process:"
                 (Some (ArgExn error)) >>
         ret {| status := 500;
                json := ErrorDetails
                  "Internal server error during call acceptance" error |}).

(** *** Routing *)

Inductive request : Type :=
  | PostSendRingingNotification (body : value)
  | PostAcceptCall (body : value)
  | GetRoot.

Definition route (env : services) (req : request) : M response :=
  match req with
  | PostSendRingingNotification body => sendRingingNotification env body
  | PostAcceptCall body => acceptCall env body
  | GetRoot =>
      ret {| status := 200;
             json := Text
               "Video Call Signaling Server V2 (No Agora Token Generation) is running!" |}
  end.

(** What serving one request leaves behind: the reply of the handler (or
    the exception that left it, which is then for Express to answer), the
    database afterwards, and the external calls made, in order. *)
Record outcome : Type := Outcome {
  reply : result response;
  store_after : gmap string value;
  effects : list event
}.

Definition serve (env : services) (req : request) (db : gmap string value)
  : outcome :=
  let '(r, w) := route env req {| store := db; trace := [] |} in
  {| reply := r; store_after := store w; effects := trace w |}.

(** Requests served one after the other, each with the collaborators'
    behaviour during it. *)
Fixpoint serve_all (db : gmap string value)
    (reqs : list (services * request)) : list outcome :=
  match reqs with
  | [] => []
  | (env, req) :: rest =>
      let o := serve env req db in
      o :: serve_all (store_after o) rest
  end.

End Server.

(* ================================================================== *)
(** ** Observations *)
(* ================================================================== *)

(** The value a location holds, as a snapshot shows it. *)
Definition record (db : gmap string value) (ref : string) : value :=
  default JNull (db !! ref).

(** The transactions of a trace, with what each reported. *)
Definition transactions (tr : list event) : list (string * result bool) :=
  omap (fun e => match e with
                 | EvTransaction ref o => Some (ref, o)
                 | _ => None
                 end) tr.

(** Some transaction at [ref] returned with [committed] equal to [c]. *)
Definition transacted (ref : string) (c : bool) (tr : list event) : bool :=
  existsb (fun t => match t with
                    | (r, Ok b) => String.eqb r ref && Bool.eqb b c
                    | (_, Throw _) => false
                    end) (transactions tr).

(** The messages handed to the push transport. *)
Definition sends (tr : list event) : list message :=
  omap (fun e => match e with
                 | EvSend m _ => Some m
                 | _ => None
                 end) tr.

(** The locations read with [once]. *)
Definition reads (tr : list event) : list string :=
  omap (fun e => match e with
                 | EvOnce ref _ => Some ref
                 | _ => None
                 end) tr.

Definition accept_fields : list string :=
  ["callId"; "acceptedByDeviceId"; "currentUid"; "token"; "channel"].

Definition ringing_fields : list string :=
  ["callerId"; "callId"; "type"; "channel"; "token"].

Definition fields_present (fields : list string) (body : value) : bool :=
  forallb (fun k => truthy (get_prop body k)) fields.

(** The record is one the update function accepts for [callId]. *)
Definition ringing_for (callId currentData : value) : bool :=
  truthy currentData
  && strict_eq (get_prop currentData "callId") callId
  && strict_eq (get_prop currentData "status") (JStr "ringing").

(** Every entry of the directory is a value whose properties can be read. *)
Definition entries_readable (allDevices : value) : bool :=
  forallb (fun kv => negb (nullish kv.2)) (own_props allDevices).

(** The ringing request passes both validation steps. *)
Definition ringing_valid (body : value) : bool :=
  truthy (get_prop body "fcmTokens")
  && is_array (get_prop body "fcmTokens")
  && negb (length (elements (get_prop body "fcmTokens")) =? 0)
  && fields_present ringing_fields body.

(** A computation that leaves the database as it is and whose external
    calls all satisfy [P]. *)
Definition emits_only {A} (P : event -> Prop) (m : M A) : Prop :=
  forall w, exists tl,
    store (m w).2 = store w /\ trace (m w).2 = trace w ++ tl /\ Forall P tl.

Definition no_transaction (e : event) : Prop :=
  match e with
  | EvTransaction _ _ => False
  | _ => True
  end.

(** No transaction, and nothing sent but a [ring_ended] message for this
    call and this device. *)
Definition fanout_event (callId acceptedByDeviceId : value) (e : event)
  : Prop :=
  match e with
  | EvTransaction _ _ => False
  | EvSend m _ => exists toks, m = ringEndedMessage callId acceptedByDeviceId toks
  | _ => True
  end.

(** The accept reply that follows a commit. *)
Definition accepted_reply (body : value) : response :=
  {| status := 200;
     json := CallAccepted "Call accepted successfully"
               (get_prop body "callId") (get_prop body "token")
               (get_prop body "channel")
               (get_prop body "acceptedByDeviceId") |}.

(* ================================================================== *)
(** ** Scenarios *)
(* ================================================================== *)

(** One user with a ringing call and three registered devices, one of them
    without a token. *)
Module Scenario.

(** The scenarios hold no numbers, so nothing is ever printed with it. *)
Definition no_numbers (n : float) : string := EmptyString.

Definition ringing_record : value :=
  JObj [("callId", JStr "c1"); ("status", JStr "ringing")].

Definition directory : value :=
  JObj [("d1", JObj [("fcmToken", JStr "t1")]);
        ("d2", JObj [("fcmToken", JStr "t2")]);
        ("d3", JObj [])].

Definition db : gmap string value :=
  <["calls/u1/activeCall" := ringing_record]>
    (<["calls/u1/devices" := directory]> ∅).


Definition accept_by (deviceId token channel : string) : value :=
  JObj [("callId", JStr "c1"); ("acceptedByDeviceId", JStr deviceId);
        ("currentUid", JStr "u1"); ("token", JStr token);
        ("channel", JStr channel)].

Definition ring (fcmTokens : value) : value :=
  JObj [("fcmTokens", fcmTokens); ("callerId", JStr "caller");
        ("callId", JStr "c1"); ("type", JStr "incoming_call");
        ("channel", JStr "ch"); ("token", JStr "tok")].

Definition delivered : send_response :=
  {| success := true; messageId := Some "m1"; error := None |}.

Definition undelivered : send_response :=
  {| success := false; messageId := None;
     error := Some "messaging/registration-token-not-registered" |}.

(** Every call into the SDK succeeds and every token is reached. *)
Definition delivering : services :=
  {| transaction_rejects := None;
     once_rejects := None;
     sendEachForMulticast :=
       fun m => Ok {| responses := map (fun _ => delivered) (tokens m) |} |}.

(** The first token is reached, the others are not. *)
Definition partly_delivering : services :=
  {| transaction_rejects := None;
     once_rejects := None;
     sendEachForMulticast :=
       fun m => Ok {| responses :=
                        match tokens m with
                        | [] => []
                        | _ :: rest =>
                            delivered :: map (fun _ => undelivered) rest
                        end |} |}.

(** The push transport cannot be reached. *)
Definition unreachable (m : message) : result batch_response :=
  Throw (Rejected "messaging/server-unavailable").

(** The transaction goes through, the read of the directory is rejected. *)
Definition directory_unreadable : services :=
  {| transaction_rejects := None;
     once_rejects := Some (Rejected "permission_denied");
     sendEachForMulticast := sendEachForMulticast delivering |}.

End Scenario.

(* ================================================================== *)
(** ** Further observations *)
(* ================================================================== *)

(** A computation that reads the database at the locations [locs] only:
    run in two worlds with the same trace so far and the same values at
    [locs], it returns the same result, makes the same external calls and
    leaves the same values at [locs]. *)
Definition reads_only {A} (locs : list string) (m : M A) : Prop :=
  forall w1 w2,
    trace w1 = trace w2 ->
    (forall p, p ∈ locs -> store w1 !! p = store w2 !! p) ->
    (m w1).1 = (m w2).1
    /\ trace (m w1).2 = trace (m w2).2
    /\ forall p, p ∈ locs -> store (m w1).2 !! p = store (m w2).2 !! p.

(** The tokens of the directory entries other than the accepting device's,
    entry by entry, in the order of the directory. *)
Definition fanout_list (allDevices acceptedByDeviceId : value) : list value :=
  omap (fun kv =>
          if negb (strict_eq (JStr kv.1) acceptedByDeviceId)
             && truthy (get_prop kv.2 "fcmToken")
          then Some (get_prop kv.2 "fcmToken")
          else None)
       (own_props allDevices).

(* ================================================================== *)
(** ** Start-up *)
(* ================================================================== *)

(** Lines 8 and 14 to 39 of the source, and the [app.listen] at its end:
    the service account is taken from the environment or from a file next to
    the script, the Admin SDK is initialised with it, and the process exits
    with code 1 when any of this throws. *)
Module Startup.

(** What the process finds around it.  [process.env] is read after
    [dotenv] has filled it; a variable is a string or is not set.  The
    calls that can throw return the message of the error ([inl]) or their
    value. *)
Record host : Type := Host {
  FIREBASE_SERVICE_ACCOUNT_KEY : option string;
  FIREBASE_DATABASE_URL : option string;
  PORT : option string;
  (** [path.resolve(__dirname, 'firebase-service-account.json')] *)
  serviceAccountPath : string;
  JSON_parse : string -> string + value;
  existsSync : string -> bool;
  require : string -> string + value;
  (** [admin.credential.cert]: [Some] message when it throws *)
  cert : value -> option string;
  (** [admin.initializeApp]: [Some] message when it throws *)
  initializeApp : value -> option string -> option string;
  (** [admin.database()]: [Some] message when it throws *)
  database : option string
}.

Inductive startup_event : Type :=
  | EvParse (text : string)
  | EvExistsSync (path : string)
  | EvRequire (path : string)
  | EvCert (serviceAccount : value)
  | EvInitializeApp (serviceAccount : value) (databaseURL : option string)
  | EvDatabase
  | EvLog (text : string)
  | EvError (text message : string)
  | EvExit (code : nat)
  | EvListen (port : value).

(** [Crashed]: an exception outside the [try] block ended the process. *)
Inductive startup_outcome : Type :=
  | Exited (code : nat)
  | Crashed (message : string)
  | Listening (port : value).

(** A variable of [process.env] in a condition or before [||]. *)
Definition set (variable : option string) : bool :=
  match variable with
  | Some text => negb (String.eqb text "")
  | None => false
  end.

(** The first half of the [try] block: where the service account comes
    from. *)
Definition load_service_account (h : host)
  : (string + value) * list startup_event :=
  if set (FIREBASE_SERVICE_ACCOUNT_KEY h) then
    let text := default EmptyString (FIREBASE_SERVICE_ACCOUNT_KEY h) in
    (JSON_parse h text, [EvParse text])
  else if existsSync h (serviceAccountPath h) then
    (require h (serviceAccountPath h),
     [EvExistsSync (serviceAccountPath h); EvRequire (serviceAccountPath h)])
  else
    (inl "Firebase service account key not found. Set FIREBASE_SERVICE_ACCOUNT_KEY env var or create firebase-service-account.json",
     [EvExistsSync (serviceAccountPath h)]).

(** The whole [try] block: [None] when it ran to its end, the message of
    the error caught otherwise. *)
Definition initialize (h : host) : option string * list startup_event :=
  match load_service_account h with
  | (inl message, evs) => (Some message, evs)
  | (inr serviceAccount, evs) =>
      match cert h serviceAccount with
      | Some message => (Some message, evs ++ [EvCert serviceAccount])
      | None =>
          match initializeApp h serviceAccount (FIREBASE_DATABASE_URL h) with
          | Some message =>
              (Some message,
               evs ++ [EvCert serviceAccount;
                       EvInitializeApp serviceAccount
                         (FIREBASE_DATABASE_URL h)])
          | None =>
              (None,
               evs ++ [EvCert serviceAccount;
                       EvInitializeApp serviceAccount
                         (FIREBASE_DATABASE_URL h);
                       EvLog "Firebase Admin SDK initialized successfully."])
          end
      end
  end.

Section Main.
Variable number_to_string : float -> string.

(** [process.env.PORT || 3000] *)
Definition port (h : host) : value :=
  if set (PORT h) then JStr (default EmptyString (PORT h))
  else JNum 3000%float.

(** The script from top to bottom: [process.exit(1)] in the [catch] ends
    it before the server listens; [admin.database()] is called outside the
    [try].  (A port that cannot be bound is reported later, by an event, and
    is not part of this.) *)
Definition main (h : host) : startup_outcome * list startup_event :=
  match initialize h with
  | (Some message, evs) =>
      (Exited 1,
       evs ++ [EvError "ERROR: Failed to initialize Firebase Admin SDK:"
                 message;
               EvExit 1])
  | (None, evs) =>
      match database h with
      | Some message => (Crashed message, evs ++ [EvDatabase])
      | None =>
          (Listening (port h),
           evs ++ [EvDatabase; EvListen (port h);
                   EvLog ("Signaling server V2 listening on port "
                          ++ to_template number_to_string (port h))])
      end
  end.
End Main.

(** The file system calls of a trace. *)
Definition file_accesses (tr : list startup_event) : list startup_event :=
  List.filter (fun e => match e with
                        | EvExistsSync _ | EvRequire _ => true
                        | _ => false
                        end) tr.

(** The initialisations of the SDK in a trace. *)
Definition initializations (tr : list startup_event)
  : list (value * option string) :=
  omap (fun e => match e with
                 | EvInitializeApp a u => Some (a, u)
                 | _ => None
                 end) tr.

Definition listens (tr : list startup_event) : list value :=
  omap (fun e => match e with
                 | EvListen p => Some p
                 | _ => None
                 end) tr.

End Startup.

(* ================================================================== *)
(** ** More scenarios *)
(* ================================================================== *)

Module MoreScenarios.
Import Scenario.

(** The database cannot be reached. *)
Definition disconnected : services :=
  {| transaction_rejects := Some (Rejected "disconnected");
     once_rejects := Some (Rejected "disconnected");
     sendEachForMulticast := sendEachForMulticast delivering |}.

(** The accept request of a client that sends its device id as a number. *)
Definition accept_by_number : value :=
  JObj [("callId", JStr "c1"); ("acceptedByDeviceId", JNum 1%float);
        ("currentUid", JStr "u1"); ("token", JStr "tok");
        ("channel", JStr "ch")].

(** A second user with a ringing call, beside the first. *)
Definition db_two_users : gmap string value :=
  <["calls/u2/activeCall" :=
      JObj [("callId", JStr "c9"); ("status", JStr "ringing")]]> db.

(** A ringing request without [callerId]. *)
Definition ring_without_caller : value :=
  JObj [("fcmTokens", JArr [JStr "tA"]); ("callId", JStr "c1");
        ("type", JStr "incoming_call"); ("channel", JStr "ch");
        ("token", JStr "tok")].

(** The push transport cannot be reached. *)
Definition undeliverable : services :=
  {| transaction_rejects := None;
     once_rejects := None;
     sendEachForMulticast := unreachable |}.

(** A host whose environment holds the service account key, the database
    URL and [PORT]; nothing throws. *)
Definition configured_host : Startup.host :=
  {| Startup.FIREBASE_SERVICE_ACCOUNT_KEY := Some "{key}";
     Startup.FIREBASE_DATABASE_URL := Some "https://demo.firebaseio.com";
     Startup.PORT := Some "8080";
     Startup.serviceAccountPath := "/app/firebase-service-account.json";
     Startup.JSON_parse := fun _ => inr (JObj [("project_id", JStr "demo")]);
     Startup.existsSync := fun _ => false;
     Startup.require := fun _ => inl "Cannot find module";
     Startup.cert := fun _ => None;
     Startup.initializeApp := fun _ _ => None;
     Startup.database := None |}.

End MoreScenarios.

(* ================================================================== *)
(** ** The accept handler over the SDK as an interface *)
(* ================================================================== *)

(** POST /acceptCall once more, line by line, against an SDK of which
    nothing is assumed.  [db.ref], [ref.transaction], [ref.once],
    [sendEachForMulticast] and the console are the fields of a record, and
    what they act on (the database, the values the SDK keeps locally, the
    network, the output) is a type variable.  A template literal and
    [db.ref] can throw here, and line 103 is outside the [try].  A property
    of this handler holds whatever the SDK does: whether it applies the
    update function to the value the database holds, or first to the value
    it has cached for the location. *)
Module Sdk.

Section Handler.
Variable number_to_string : float -> string.
Variable St : Type.

Definition G (A : Type) : Type := St -> result A * St.

Definition gret {A} (a : A) : G A := fun s => (Ok a, s).

Definition gthrow {A} (e : exn) : G A := fun s => (Throw e, s).

Definition gbind {A B} (m : G A) (k : A -> G B) : G B :=
  fun s =>
    match m s with
    | (Ok a, s') => k a s'
    | (Throw e, s') => (Throw e, s')
    end.

Definition gcatch {A} (m : G A) (handler : exn -> G A) : G A :=
  fun s =>
    match m s with
    | (Ok a, s') => (Ok a, s')
    | (Throw e, s') => handler e s'
    end.

(** An expression that touches nothing outside. *)
Definition lift {A} (r : result A) : G A := fun s => (r, s).

Notation "x <~~ c1 ';;' c2" := (gbind c1 (fun x => c2))
  (at level 100, c1 at next level, right associativity, only parsing).
Notation "c1 '>>>' c2" := (gbind c1 (fun _ => c2))
  (at level 100, right associativity, only parsing).

(** The string a template literal interpolates for [v], or the [TypeError]
    it throws.  [ToString] of an object calls its [toString] method; an own
    property of that name (never a function in a parsed body or a snapshot)
    hides the method of [Object.prototype], and [valueOf] does not return a
    primitive.  An array joins the strings of its elements. *)
Fixpoint template (v : value) : result string :=
  match v with
  | JUndef => Ok "undefined"
  | JNull => Ok "null"
  | JBool true => Ok "true"
  | JBool false => Ok "false"
  | JNum n => Ok (number_to_string n)
  | JStr s => Ok s
  | JArr elems =>
      match
        (fix pieces (l : list value) : result (list string) :=
           match l with
           | [] => Ok []
           | x :: rest =>
               match match x with
                     | JUndef | JNull => Ok EmptyString
                     | _ => template x
                     end with
               | Throw e => Throw e
               | Ok piece =>
                   match pieces rest with
                   | Throw e => Throw e
                   | Ok others => Ok (piece :: others)
                   end
               end
           end) elems
      with
      | Throw e => Throw e
      | Ok strings => Ok (String.concat "," strings)
      end
  | JObj props =>
      match assoc "toString" props with
      | Some _ => Throw (TypeError v "toString")
      | None => Ok "[object Object]"
      end
  end.

(** The SDK and the console, as the handler meets them. *)
Record platform : Type := Platform {
  (** [db.ref(path)]: the exception it throws when it refuses the path *)
  sdk_ref : string -> option exn;
  (** [await ref.transaction(update)], for the reference of a path *)
  sdk_transaction :
    string -> (value -> G (option value)) -> G transaction_result;
  (** [(await ref.once('value')).val()] *)
  sdk_once : string -> G value;
  (** [await admin.messaging().sendEachForMulticast(message)] *)
  sdk_send : message -> G batch_response;
  (** [console.log] and [console.error] *)
  sdk_console : level -> string -> option console_arg -> St -> St
}.

Variable p : platform.

Definition say (lvl : level) (text : string) (arg : option console_arg)
  : G unit :=
  fun s => (Ok tt, sdk_console p lvl text arg s).

Definition ref (path : string) : G string :=
  match sdk_ref p path with
  | Some e => gthrow e
  | None => gret path
  end.

Definition gprop (v : value) (k : string) : G value :=
  if nullish v then gthrow (TypeError v k) else gret (get_prop v k).

(** The update function handed to [activeCallRef.transaction], lines 106
    to 124. *)
Definition accept_update (callId acceptedByDeviceId currentData : value)
  : G (option value) :=
  if negb (truthy currentData)
     || negb (strict_eq (get_prop currentData "callId") callId)
  then
    id <~~ lift (template callId) ;;
    say Log ("Transaction aborted for callId " ++ id
             ++ ": Node missing or ID mismatch.") None >>>
    gret None
  else if negb (strict_eq (get_prop currentData "status") (JStr "ringing"))
  then
    id <~~ lift (template callId) ;;
    found <~~ lift (template (get_prop currentData "status")) ;;
    say Log ("Transaction aborted for callId " ++ id
             ++ ": Call status is " ++ found ++ ", not 'ringing'.") None >>>
    gret None
  else
    let currentData := set_prop currentData "status" (JStr "in_progress") in
    let currentData :=
      set_prop currentData "acceptedByDeviceId" acceptedByDeviceId in
    id <~~ lift (template callId) ;;
    device <~~ lift (template acceptedByDeviceId) ;;
    say Log ("Call " ++ id ++ " accepted by " ++ device ++ ".") None >>>
    gret (Some currentData).

(** The [for (const deviceIdKey in allDevices)] loop, lines 143 to 148. *)
Fixpoint collect_tokens (allDevices acceptedByDeviceId : value)
    (deviceIdKeys : list string) (fcmTokensToNotify : list value)
  : G (list value) :=
  match deviceIdKeys with
  | [] => gret fcmTokensToNotify
  | deviceIdKey :: rest =>
      if negb (strict_eq (JStr deviceIdKey) acceptedByDeviceId)
      then
        fcmToken <~~ gprop (get_prop allDevices deviceIdKey) "fcmToken" ;;
        if truthy fcmToken
        then collect_tokens allDevices acceptedByDeviceId rest
               (fcmTokensToNotify ++ [fcmToken])
        else collect_tokens allDevices acceptedByDeviceId rest
               fcmTokensToNotify
      else collect_tokens allDevices acceptedByDeviceId rest
             fcmTokensToNotify
  end.

(** The [if (allDevices) { ... }] block, lines 141 to 171. *)
Definition notify_others (callId acceptedByDeviceId allDevices : value)
  : G unit :=
  if truthy allDevices then
    fcmTokensToNotify <~~
      collect_tokens allDevices acceptedByDeviceId (keys allDevices) [] ;;
    if 0 <? length fcmTokensToNotify then
      gcatch
        (fcmResponse <~~
           sdk_send p (ringEndedMessage callId acceptedByDeviceId
                         fcmTokensToNotify) ;;
         say Log "Successfully sent ring_ended multicast message:"
             (Some (ArgBatch fcmResponse)))
        (fun fcmError =>
           say Error "Error sending ring_ended multicast message:"
               (Some (ArgExn fcmError)))
    else gret tt
  else gret tt.

(** What the handler does with the result of the transaction, lines 126
    to 180. *)
Definition after_transaction (callId acceptedByDeviceId currentUid
    token channel : value) (transactionResult : transaction_result)
  : G response :=
  if negb (committed transactionResult) then
    if truthy (snapshot transactionResult)
       && strict_eq (get_prop (snapshot transactionResult) "status")
                    (JStr "in_progress")
    then
      gret {| status := 409;
              json := ErrorBody "Call already accepted by another device." |}
    else
      gret {| status := 409;
              json := ErrorBody "Call no longer active or invalid call ID." |}
  else
    uid <~~ lift (template currentUid) ;;
    devicesRef <~~ ref ("calls/" ++ uid ++ "/devices") ;;
    allDevices <~~ sdk_once p devicesRef ;;
    notify_others callId acceptedByDeviceId allDevices >>>
    gret {| status := 200;
            json := CallAccepted "Call accepted successfully"
                      callId token channel acceptedByDeviceId |}.

(** The handler, lines 95 to 186.  An exception it does not catch is its
    second result. *)
Definition acceptCall (body : value) : G response :=
  (if nullish body then gthrow (TypeError body "") else gret tt) >>>
  let callId := get_prop body "callId" in
  let acceptedByDeviceId := get_prop body "acceptedByDeviceId" in
  let currentUid := get_prop body "currentUid" in
  let token := get_prop body "token" in
  let channel := get_prop body "channel" in
  if negb (truthy callId) || negb (truthy acceptedByDeviceId)
     || negb (truthy currentUid) || negb (truthy token)
     || negb (truthy channel)
  then
    gret {| status := 400;
            json := ErrorBody
              "callId, acceptedByDeviceId, currentUid, token, and channel are all required." |}
  else
    uid <~~ lift (template currentUid) ;;
    activeCallRef <~~ ref ("calls/" ++ uid ++ "/activeCall") ;;
    gcatch
      (transactionResult <~~
         sdk_transaction p activeCallRef
           (accept_update callId acceptedByDeviceId) ;;
       after_transaction callId acceptedByDeviceId currentUid token channel
         transactionResult)
      (fun error =>
         say Error "Error during call acceptance process:"
             (Some (ArgExn error)) >>>
         gret {| status := 500;
                 json := ErrorDetails
                   "Internal server error during call acceptance" error |}).

(** How the SDK starts a transaction while it holds [cached] for the
    location ([null] when it holds nothing, as in a process that has no
    listener there): the update function is applied to [cached] before the
    database is asked, and when it returns [undefined] the transaction is
    over, not committed, with [cached] as its snapshot. *)
Definition aborts_on_cached (cached : value) : Prop :=
  forall path update s s1,
    update cached s = (Ok None, s1) ->
    exists s2,
      sdk_transaction p path update s
      = (Ok {| committed := false; snapshot := cached |}, s2).

End Handler.

Arguments sdk_ref {St} _ _.
Arguments sdk_transaction {St} _ _ _ _.
Arguments sdk_once {St} _ _ _.
Arguments sdk_send {St} _ _ _.
Arguments sdk_console {St} _ _ _ _ _.
Arguments gret {St A} _ _.
Arguments gthrow {St A} _ _.
Arguments gbind {St A B} _ _ _.
Arguments gcatch {St A} _ _ _.
Arguments lift {St A} _ _.
Arguments say {St} _ _ _ _ _.
Arguments ref {St} _ _ _.
Arguments gprop {St} _ _ _.
Arguments accept_update _ {St} _ _ _ _ _.
Arguments collect_tokens {St} _ _ _ _ _.
Arguments notify_others {St} _ _ _ _ _.
Arguments after_transaction _ {St} _ _ _ _ _ _ _ _.
Arguments acceptCall _ {St} _ _ _.
Arguments aborts_on_cached {St} _ _.

(** An SDK that holds nothing locally, in front of the database of
    [world]: the update function runs on [null] first; [undefined] ends the
    transaction there.  Another value goes to the database, which takes it
    when the location is empty and otherwise hands back what it holds, on
    which the update function runs again. *)
Definition cold_transaction (env : services) (path : string)
    (update : value -> M (option value)) : M transaction_result :=
  fun w =>
    match update JNull w with
    | (Throw e, w1) => (Throw e, w1)
    | (Ok None, w1) =>
        (emit (EvTransaction path (Ok false)) >>
         ret {| committed := false; snapshot := JNull |}) w1
    | (Ok (Some newData), w1) =>
        match transaction_rejects env with
        | Some e => (emit (EvTransaction path (Throw e)) >> throw e) w1
        | None =>
            match store w1 !! path with
            | None =>
                (emit (EvTransaction path (Ok true)) >>
                 ret {| committed := true; snapshot := newData |})
                  {| store := <[path := newData]> (store w1);
                     trace := trace w1 |}
            | Some held => transaction env path update w1
            end
        end
    end.

(** [refuses]: the paths [db.ref] throws on, with what it throws. *)
Definition cold_firebase (refuses : string -> option exn) (env : services)
  : platform world :=
  {| sdk_ref := refuses;
     sdk_transaction := cold_transaction env;
     sdk_once := once env;
     sdk_send := send env;
     sdk_console := fun lvl text arg w =>
       {| store := store w; trace := trace w ++ [EvConsole lvl text arg] |} |}.


(** A [db.ref] that throws on a path with a dot in it, and on no other. *)
Definition refuses_dot (path : string) : option exn :=
  if existsb (fun c => Ascii.eqb c ".") (list_ascii_of_string path)
  then Some (Rejected "Reference.child failed: path contains an invalid character")
  else None.

(** A [db.ref] that takes every path. *)
Definition refuses_nothing (path : string) : option exn := None.

End Sdk.

(* ================================================================== *)
(** ** Values and properties *)
(* ================================================================== *)

Lemma falsy_no_props v : truthy v = false -> own_props v = [].
Proof.
  destruct v as [| | | |s| |]; simpl; try done.
  destruct s; simpl; [done|]. discriminate.
Qed.

Lemma falsy_get_prop v k : truthy v = false -> get_prop v k = JUndef.
Proof. intros H. unfold get_prop. by rewrite falsy_no_props. Qed.

Lemma get_prop_nullish v k : nullish v = true -> get_prop v k = JUndef.
Proof. by destruct v. Qed.

Lemma status_found_truthy v s :
  strict_eq (get_prop v "status") (JStr s) = true -> truthy v = true.
Proof.
  destruct (truthy v) eqn:E; [done|]. by rewrite falsy_get_prop.
Qed.

Lemma strict_eq_str v s : strict_eq v (JStr s) = true -> v = JStr s.
Proof.
  destruct v; simpl; try done. by intros ->%String.eqb_eq.
Qed.

Lemma assoc_key_found k (props : list (string * value)) :
  k ∈ props.*1 -> exists v, assoc k props = Some v /\ (k, v) ∈ props.
Proof.
  induction props as [|[k' x] props IH]; simpl; intros Hk.
  - by apply elem_of_nil in Hk.
  - destruct (String.eqb_spec k' k) as [->|Hne].
    + exists x. split; [done|]. apply list_elem_of_here.
    + apply elem_of_cons in Hk as [Hk|Hk]; [congruence|].
      destruct (IH Hk) as (v & Hv & Hin). exists v. split; [done|].
      by apply list_elem_of_further.
Qed.

Lemma assoc_found_key k v (props : list (string * value)) :
  assoc k props = Some v -> k ∈ props.*1.
Proof.
  induction props as [|[k' x] props IH]; simpl; [done|].
  destruct (String.eqb_spec k' k) as [->|Hne]; intros H.
  - apply list_elem_of_here.
  - apply list_elem_of_further. by apply IH.
Qed.

Lemma assoc_set_same k x props : assoc k (assoc_set k x props) = Some x.
Proof.
  induction props as [|[k' y] props IH]; simpl.
  - by rewrite String.eqb_refl.
  - destruct (String.eqb k' k) eqn:E; simpl; by rewrite E.
Qed.

Lemma assoc_set_other k k' x props :
  k <> k' -> assoc k' (assoc_set k x props) = assoc k' props.
Proof.
  intros Hne. induction props as [|[k0 y] props IH]; simpl.
  - by apply String.eqb_neq in Hne as ->.
  - destruct (String.eqb_spec k0 k) as [->|Hk]; simpl.
    + by apply String.eqb_neq in Hne as ->.
    + by rewrite IH.
Qed.

(** A property key of an array or of a string starts with a digit. *)
Lemma index_key_digit i :
  exists c s, index_key i = String c s /\ (48 <=? nat_of_ascii c) = true
              /\ (nat_of_ascii c <=? 57) = true.
Proof.
  unfold index_key. destruct (Nat.to_uint i); simpl; eauto.
Qed.

Lemma imap_keys_indices {A} (f : A -> value) (l : list A) k :
  k ∈ (imap (fun i x => (index_key i, f x)) l).*1 -> exists i, k = index_key i.
Proof.
  rewrite list_elem_of_fmap. intros ([k' v] & -> & Hin).
  apply elem_of_lookup_imap in Hin as (i & x & Heq & _).
  exists i. by injection Heq.
Qed.

(** A value on which a property named like a field (not like an index) is
    found is an object. *)
Lemma named_prop_object v k c s x :
  k = String c s -> (nat_of_ascii c <=? 57) = false ->
  assoc k (own_props v) = Some x -> exists props, v = JObj props.
Proof.
  intros -> Hc Hfound. apply assoc_found_key in Hfound.
  assert (Hidx : forall i, String c s <> index_key i).
  { intros i Heq. destruct (index_key_digit i) as (c' & s' & Hk & _ & Hle).
    rewrite Hk in Heq. injection Heq as -> _. congruence. }
  destruct v as [| | | |str|elems|props]; simpl in Hfound;
    try by apply elem_of_nil in Hfound.
  - apply (imap_keys_indices (fun c0 => JStr (String c0 EmptyString)))
      in Hfound as [i Hi]. by destruct (Hidx i).
  - apply (imap_keys_indices (fun x => x)) in Hfound as [i Hi].
    by destruct (Hidx i).
  - by exists props.
Qed.

Lemma status_found_object v s :
  get_prop v "status" = JStr s -> exists props, v = JObj props.
Proof.
  unfold get_prop. destruct (assoc "status" (own_props v)) as [x|] eqn:E;
    [|done].
  intros _. by eapply (named_prop_object v "status" "s"%char "tatus").
Qed.

Lemma get_set_prop_same props k x : get_prop (set_prop (JObj props) k x) k = x.
Proof. unfold get_prop. simpl. by rewrite assoc_set_same. Qed.

Lemma get_set_prop_other v k k' x :
  k <> k' -> get_prop (set_prop v k x) k' = get_prop v k'.
Proof.
  intros Hne. destruct v; try done. unfold get_prop. simpl.
  by rewrite assoc_set_other.
Qed.

Lemma append_inj_l (s a b : string) : (s ++ a = s ++ b)%string -> a = b.
Proof.
  induction s as [|c s IH]; simpl; [done|]. intros H. injection H as H. auto.
Qed.

Lemma fields_present_in fields body k :
  fields_present fields body = true -> k ∈ fields ->
  truthy (get_prop body k) = true.
Proof.
  unfold fields_present. rewrite forallb_forall. intros H Hk.
  apply H. by apply list_elem_of_In.
Qed.

Lemma fields_present_body fields body :
  fields <> [] -> fields_present fields body = true -> nullish body = false.
Proof.
  intros Hne H. destruct fields as [|k fields]; [done|]. simpl in H.
  apply andb_true_iff in H as [H _].
  destruct (nullish body) eqn:E; [|done]. by rewrite get_prop_nullish in H.
Qed.

Lemma accept_fields_body body :
  fields_present accept_fields body = true -> nullish body = false.
Proof. by apply fields_present_body. Qed.

Lemma readable_entry allDevices k :
  entries_readable allDevices = true ->
  k ∈ keys allDevices ->
  nullish (get_prop allDevices k) = false.
Proof.
  unfold entries_readable, keys, get_prop. rewrite forallb_forall.
  intros Hall Hk. destruct (assoc_key_found _ _ Hk) as (v & -> & Hin).
  apply list_elem_of_In, Hall in Hin. simpl in *. by destruct (nullish v).
Qed.

(* ================================================================== *)
(** ** Frame rules of the monad *)
(* ================================================================== *)

Section Emits.
Context {P : event -> Prop}.

Lemma emits_ret {A} (a : A) : emits_only P (ret a).
Proof. intros w. exists []. by rewrite app_nil_r. Qed.

Lemma emits_throw {A} e : emits_only P (@throw A e).
Proof. intros w. exists []. by rewrite app_nil_r. Qed.

Lemma emits_bind {A B} (m : M A) (k : A -> M B) :
  emits_only P m -> (forall a, emits_only P (k a)) -> emits_only P (bind m k).
Proof.
  intros Hm Hk w. unfold bind.
  destruct (Hm w) as (tl & Hs & Ht & Hn).
  destruct (m w) as [[a|e] w1]; simpl in *.
  - destruct (Hk a w1) as (tl' & Hs' & Ht' & Hn').
    exists (tl ++ tl'). rewrite Hs', Ht', Hs, Ht, <- List.app_assoc.
    split_and!; [done..|]. by apply Forall_app.
  - by exists tl.
Qed.

Lemma emits_try_catch {A} (m : M A) (h : exn -> M A) :
  emits_only P m -> (forall e, emits_only P (h e)) ->
  emits_only P (try_catch m h).
Proof.
  intros Hm Hh w. unfold try_catch.
  destruct (Hm w) as (tl & Hs & Ht & Hn).
  destruct (m w) as [[a|e] w1]; simpl in *.
  - by exists tl.
  - destruct (Hh e w1) as (tl' & Hs' & Ht' & Hn').
    exists (tl ++ tl'). rewrite Hs', Ht', Hs, Ht, <- List.app_assoc.
    split_and!; [done..|]. by apply Forall_app.
Qed.

Lemma emits_emit e : P e -> emits_only P (emit e).
Proof. intros He w. exists [e]. split_and!; [done..|]. by constructor. Qed.

Lemma emits_if {A} (b : bool) (m1 m2 : M A) :
  emits_only P m1 -> emits_only P m2 -> emits_only P (if b then m1 else m2).
Proof. by destruct b. Qed.

Lemma emits_prop v k : emits_only P (prop v k).
Proof. unfold prop. apply emits_if; [apply emits_throw | apply emits_ret]. Qed.

Lemma emits_destructure v : emits_only P (destructure v).
Proof.
  unfold destructure. apply emits_if; [apply emits_throw | apply emits_ret].
Qed.

Lemma emits_console lvl text arg :
  P (EvConsole lvl text arg) -> emits_only P (console lvl text arg).
Proof. apply emits_emit. Qed.

Lemma emits_once env ref :
  (forall o, P (EvOnce ref o)) -> emits_only P (once env ref).
Proof.
  intros HP. unfold once. destruct (once_rejects env).
  - apply emits_bind; [by apply emits_emit | intros; apply emits_throw].
  - intros w. eexists [_]. split_and!; [done..|]. by constructor.
Qed.

Lemma emits_send env m :
  (forall o, P (EvSend m o)) -> emits_only P (send env m).
Proof.
  intros HP. unfold send. destruct (sendEachForMulticast env m).
  - apply emits_bind; [by apply emits_emit | intros; apply emits_ret].
  - apply emits_bind; [by apply emits_emit | intros; apply emits_throw].
Qed.

Lemma emits_collect_tokens allDevices acc ks toks :
  emits_only P (collect_tokens allDevices acc ks toks).
Proof.
  revert toks. induction ks as [|k ks IH]; intros toks; simpl.
  - apply emits_ret.
  - apply emits_if; [|done].
    apply emits_bind; [apply emits_prop|intros tok]. by apply emits_if.
Qed.
End Emits.

Lemma fanout_no_transaction callId acc e :
  fanout_event callId acc e -> no_transaction e.
Proof. by destruct e. Qed.

Lemma transactions_app tr1 tr2 :
  transactions (tr1 ++ tr2) = transactions tr1 ++ transactions tr2.
Proof. apply omap_app. Qed.

Lemma sends_app tr1 tr2 : sends (tr1 ++ tr2) = sends tr1 ++ sends tr2.
Proof. apply omap_app. Qed.

Lemma no_transactions tl : Forall no_transaction tl -> transactions tl = [].
Proof.
  induction 1 as [|e tl He _ IH]; [done|].
  destruct e; simpl in *; done.
Qed.

Lemma fanout_sends callId acc tl m :
  Forall (fanout_event callId acc) tl -> m ∈ sends tl ->
  exists toks, m = ringEndedMessage callId acc toks.
Proof.
  induction 1 as [|e tl He _ IH]; simpl.
  - by intros ?%elem_of_nil.
  - destruct e; simpl in *; try done.
    intros [->|Hin]%elem_of_cons; [done|]. by apply IH.
Qed.

Lemma emits_notify_others env callId acc allDevices :
  emits_only (fanout_event callId acc)
             (notify_others env callId acc allDevices).
Proof.
  unfold notify_others. apply emits_if; [|apply emits_ret].
  apply emits_bind; [apply emits_collect_tokens|intros toks].
  apply emits_if; [|apply emits_ret].
  apply emits_try_catch.
  - apply emits_bind; [apply emits_send; simpl; eauto|intros r].
    by apply emits_console.
  - intros e. by apply emits_console.
Qed.

Lemma quiet_sendRingingNotification env body :
  emits_only no_transaction (sendRingingNotification env body).
Proof.
  unfold sendRingingNotification.
  apply emits_bind; [apply emits_destructure|intros _].
  apply emits_if; [apply emits_ret|]. apply emits_if; [apply emits_ret|].
  apply emits_try_catch.
  - apply emits_bind; [by apply emits_send|intros r].
    apply emits_bind; [by apply emits_console|intros _].
    apply emits_bind; [|intros; apply emits_ret].
    apply emits_if; [by apply emits_console|apply emits_ret].
  - intros e. apply emits_bind; [by apply emits_console|intros; apply emits_ret].
Qed.

(* ================================================================== *)
(** ** The stop-ringing fan-out *)
(* ================================================================== *)

(** On a directory whose entries can be read the loop finishes, and collects
    the token of every entry that is not the accepting device's and has
    one. *)
Lemma collect_tokens_run allDevices acc ks pre w :
  (forall k, k ∈ ks -> strict_eq (JStr k) acc = false ->
             nullish (get_prop allDevices k) = false) ->
  exists toks,
    collect_tokens allDevices acc ks pre w = (Ok (pre ++ toks), w)
    /\ forall t, t ∈ toks <->
         exists d, d ∈ ks /\ strict_eq (JStr d) acc = false
                   /\ truthy (get_prop (get_prop allDevices d) "fcmToken") = true
                   /\ t = get_prop (get_prop allDevices d) "fcmToken".
Proof.
  revert pre. induction ks as [|k ks IH]; intros pre Hread.
  - exists []. simpl. rewrite app_nil_r. split; [done|].
    intros t. split; [by intros ?%elem_of_nil|].
    by intros (d & ?%elem_of_nil & _).
  - assert (Hread' : forall k0, k0 ∈ ks -> strict_eq (JStr k0) acc = false ->
                                nullish (get_prop allDevices k0) = false).
    { intros k0 Hk0. apply Hread. by apply list_elem_of_further. }
    cbn [collect_tokens].
    destruct (strict_eq (JStr k) acc) eqn:Ek; cbn [negb].
    + destruct (IH pre Hread') as (toks & Hrun & Hmem). exists toks.
      split; [done|]. intros t. rewrite Hmem. split.
      * intros (d & Hd & Hrest). exists d. split; [|done].
        by apply list_elem_of_further.
      * intros (d & Hd & Hne & Hrest). exists d.
        apply elem_of_cons in Hd as [->|Hd]; [congruence|done].
    + unfold bind, prop.
      rewrite (Hread k (list_elem_of_here _ _) Ek). cbn [ret].
      destruct (truthy (get_prop (get_prop allDevices k) "fcmToken")) eqn:Et.
      * destruct (IH (pre ++ [get_prop (get_prop allDevices k) "fcmToken"])
                    Hread') as (toks & Hrun & Hmem).
        exists (get_prop (get_prop allDevices k) "fcmToken" :: toks).
        split; [by rewrite Hrun, <- List.app_assoc|].
        intros t. rewrite elem_of_cons, Hmem. split.
        -- intros [->|(d & Hd & Hrest)].
           ++ exists k. split; [apply list_elem_of_here|done].
           ++ exists d. split; [by apply list_elem_of_further|done].
        -- intros (d & Hd & Hne & Htr & ->).
           apply elem_of_cons in Hd as [->|Hd]; [by left|].
           right. by exists d.
      * destruct (IH pre Hread') as (toks & Hrun & Hmem). exists toks.
        split; [done|]. intros t. rewrite Hmem. split.
        -- intros (d & Hd & Hrest). exists d. split; [|done].
           by apply list_elem_of_further.
        -- intros (d & Hd & Hne & Htr & ->). exists d.
           apply elem_of_cons in Hd as [->|Hd]; [congruence|done].
Qed.

(** The block never throws: a failing dispatch ends in its own handler. *)
Lemma notify_others_run env callId acc allDevices toks w :
  collect_tokens allDevices acc (keys allDevices) [] w = (Ok toks, w) ->
  exists tl,
    notify_others env callId acc allDevices w
    = (Ok tt, {| store := store w; trace := trace w ++ tl |})
    /\ sends tl = match toks with
                  | [] => []
                  | _ :: _ => [ringEndedMessage callId acc toks]
                  end
    /\ reads tl = [] /\ transactions tl = [].
Proof.
  intros Hc. unfold notify_others.
  destruct (truthy allDevices) eqn:Et.
  - unfold bind at 1. rewrite Hc.
    destruct toks as [|t toks]; cbn [length Nat.ltb Nat.leb].
    + exists []. destruct w. by rewrite app_nil_r.
    + unfold try_catch, bind, send.
      destruct (sendEachForMulticast env _) as [r|e]; cbn.
      * eexists [_; _]. rewrite <- List.app_assoc. by split.
      * eexists [_; _]. unfold console, emit. cbn.
        rewrite <- List.app_assoc. by split.
  - unfold keys in Hc. rewrite (falsy_no_props _ Et) in Hc. simpl in Hc.
    injection Hc as <-. exists []. destruct w. by rewrite app_nil_r.
Qed.

(* ================================================================== *)
(** ** The conditional transition *)
(* ================================================================== *)

(** The record the update function returns. *)
Abbreviation accepted acc cur :=
  (set_prop (set_prop cur "status" (JStr "in_progress"))
            "acceptedByDeviceId" acc).

Section Transition.
Variable number_to_string : float -> string.

Lemma accept_update_run callId acc cur w :
  exists text,
    accept_update number_to_string callId acc cur w
    = (Ok (if ringing_for callId cur then Some (accepted acc cur) else None),
       {| store := store w; trace := trace w ++ [EvConsole Log text None] |}).
Proof.
  unfold accept_update, ringing_for.
  destruct (truthy cur); simpl; [|by eexists].
  destruct (strict_eq (get_prop cur "callId") callId); simpl; [|by eexists].
  destruct (strict_eq (get_prop cur "status") (JStr "ringing")); simpl;
    by eexists.
Qed.

Lemma transaction_rejected env ref update w e :
  transaction_rejects env = Some e ->
  transaction env ref update w
  = (Throw e,
     {| store := store w;
        trace := trace w ++ [EvTransaction ref (Throw e)] |}).
Proof. intros H. unfold transaction. by rewrite H. Qed.

Lemma transaction_accept env ref callId acc w :
  transaction_rejects env = None ->
  exists text,
    transaction env ref (accept_update number_to_string callId acc) w
    = if ringing_for callId (record (store w) ref)
      then (Ok {| committed := true;
                  snapshot := accepted acc (record (store w) ref) |},
            {| store := <[ref := accepted acc (record (store w) ref)]>
                          (store w);
               trace := trace w ++ [EvConsole Log text None;
                                    EvTransaction ref (Ok true)] |})
      else (Ok {| committed := false; snapshot := record (store w) ref |},
            {| store := store w;
               trace := trace w ++ [EvConsole Log text None;
                                    EvTransaction ref (Ok false)] |}).
Proof.
  intros H. unfold transaction. rewrite H. fold (record (store w) ref).
  destruct (accept_update_run callId acc (record (store w) ref) w)
    as [text ->].
  exists text.
  destruct (ringing_for callId (record (store w) ref)); cbn;
    by rewrite <- List.app_assoc.
Qed.

(** The update function refuses exactly the records the claim lists. *)
Lemma ringing_for_false callId (db : gmap string value) ref :
  ringing_for callId (record db ref) = false <->
  db !! ref = None
  \/ strict_eq (get_prop (record db ref) "callId") callId = false
  \/ strict_eq (get_prop (record db ref) "status") (JStr "ringing") = false.
Proof.
  unfold ringing_for. split.
  - intros H. apply andb_false_iff in H as [H|H]; [|by auto].
    apply andb_false_iff in H as [H|H]; [|by auto].
    right; right. by rewrite (falsy_get_prop _ _ H).
  - intros [H|[H|H]].
    + unfold record. by rewrite H.
    + rewrite H. by rewrite andb_false_r.
    + rewrite H. by rewrite andb_false_r.
Qed.

Lemma refs_differ uid :
  activeCallRef number_to_string uid <> devicesRef number_to_string uid.
Proof.
  unfold activeCallRef, devicesRef. intros H.
  apply append_inj_l, append_inj_l in H. discriminate.
Qed.
End Transition.

(* ================================================================== *)
(** ** The accept handler, case by case *)
(* ================================================================== *)

Abbreviation invalid_accept :=
  {| status := 400;
     json := ErrorBody
       "callId, acceptedByDeviceId, currentUid, token, and channel are all required." |}.

Abbreviation accept_failed e :=
  {| status := 500;
     json := ErrorDetails "Internal server error during call acceptance" e |}.

Abbreviation on_error :=
  (fun error =>
     bind (console Error "Error during call acceptance process:"
             (Some (ArgExn error)))
          (fun _ => ret (accept_failed error))).

Lemma accept_guard body :
  negb (truthy (get_prop body "callId"))
  || negb (truthy (get_prop body "acceptedByDeviceId"))
  || negb (truthy (get_prop body "currentUid"))
  || negb (truthy (get_prop body "token"))
  || negb (truthy (get_prop body "channel"))
  = negb (fields_present accept_fields body).
Proof.
  unfold fields_present, accept_fields; simpl.
  repeat destruct (truthy _); reflexivity.
Qed.

(** What [acceptCall] still has to do once the transaction committed. *)
Abbreviation after_commit number_to_string env body :=
  (try_catch
     (bind (once env (devicesRef number_to_string (get_prop body "currentUid")))
        (fun allDevices =>
           bind (notify_others env (get_prop body "callId")
                   (get_prop body "acceptedByDeviceId") allDevices)
                (fun _ => ret (accepted_reply body))))
     on_error).

Section Accept.
Variable number_to_string : float -> string.

Lemma acceptCall_unanswered env body w :
  nullish body = true ->
  acceptCall number_to_string env body w = (Throw (TypeError body ""), w).
Proof. intros Hb. unfold acceptCall, destructure, bind. by rewrite Hb. Qed.

Lemma acceptCall_invalid env body w :
  nullish body = false ->
  fields_present accept_fields body = false ->
  acceptCall number_to_string env body w = (Ok invalid_accept, w).
Proof.
  intros Hb Hf. unfold acceptCall, destructure, bind. rewrite Hb.
  cbn -[truthy get_prop]. by rewrite accept_guard, Hf.
Qed.

Lemma acceptCall_rejected env body w e :
  fields_present accept_fields body = true ->
  transaction_rejects env = Some e ->
  acceptCall number_to_string env body w
  = (Ok (accept_failed e),
     {| store := store w;
        trace := trace w
          ++ [EvTransaction
                (activeCallRef number_to_string (get_prop body "currentUid"))
                (Throw e);
              EvConsole Error "Error during call acceptance process:"
                (Some (ArgExn e))] |}).
Proof.
  intros Hf Hr. unfold acceptCall, destructure.
  rewrite (accept_fields_body _ Hf).
  unfold bind at 1. unfold ret at 1.
  rewrite accept_guard, Hf. cbn [negb].
  unfold try_catch, bind at 1. rewrite (transaction_rejected _ _ _ _ _ Hr).
  cbn. by rewrite <- List.app_assoc.
Qed.

Lemma acceptCall_aborted env body w :
  fields_present accept_fields body = true ->
  transaction_rejects env = None ->
  let ref := activeCallRef number_to_string (get_prop body "currentUid") in
  ringing_for (get_prop body "callId") (record (store w) ref) = false ->
  exists text,
    acceptCall number_to_string env body w
    = (Ok {| status := 409;
             json := ErrorBody
               (if strict_eq (get_prop (record (store w) ref) "status")
                             (JStr "in_progress")
                then "Call already accepted by another device."
                else "Call no longer active or invalid call ID.") |},
       {| store := store w;
          trace := trace w ++ [EvConsole Log text None;
                               EvTransaction ref (Ok false)] |}).
Proof.
  intros Hf Hr ref Hn. unfold acceptCall, destructure.
  rewrite (accept_fields_body _ Hf).
  unfold bind at 1. unfold ret at 1.
  rewrite accept_guard, Hf. cbn [negb].
  destruct (transaction_accept number_to_string env ref
              (get_prop body "callId") (get_prop body "acceptedByDeviceId")
              w Hr) as [text Ht].
  exists text. unfold try_catch, bind at 1. fold ref. rewrite Ht, Hn.
  cbn [committed snapshot negb].
  destruct (strict_eq (get_prop (record (store w) ref) "status")
              (JStr "in_progress")) eqn:Es.
  - by rewrite (status_found_truthy _ _ Es).
  - by rewrite andb_false_r.
Qed.

Lemma acceptCall_committed env body w :
  fields_present accept_fields body = true ->
  transaction_rejects env = None ->
  let ref := activeCallRef number_to_string (get_prop body "currentUid") in
  ringing_for (get_prop body "callId") (record (store w) ref) = true ->
  exists text,
    acceptCall number_to_string env body w
    = after_commit number_to_string env body
        {| store := <[ref := accepted (get_prop body "acceptedByDeviceId")
                                      (record (store w) ref)]> (store w);
           trace := trace w ++ [EvConsole Log text None;
                                EvTransaction ref (Ok true)] |}.
Proof.
  intros Hf Hr ref Hn. unfold acceptCall, destructure.
  rewrite (accept_fields_body _ Hf).
  unfold bind at 1. unfold ret at 1.
  rewrite accept_guard, Hf. cbn [negb].
  destruct (transaction_accept number_to_string env ref
              (get_prop body "callId") (get_prop body "acceptedByDeviceId")
              w Hr) as [text Ht].
  exists text. unfold try_catch, bind at 1. fold ref. rewrite Ht, Hn.
  cbn [committed snapshot negb]. reflexivity.
Qed.

Lemma emits_after_commit env body :
  emits_only (fanout_event (get_prop body "callId")
                           (get_prop body "acceptedByDeviceId"))
             (after_commit number_to_string env body).
Proof.
  apply emits_try_catch.
  - apply emits_bind; [by apply emits_once|intros allDevices].
    apply emits_bind; [apply emits_notify_others|intros; apply emits_ret].
  - intros e. apply emits_bind; [by apply emits_console|].
    intros; apply emits_ret.
Qed.

Lemma after_commit_read_rejected env body w e :
  once_rejects env = Some e ->
  after_commit number_to_string env body w
  = (Ok (accept_failed e),
     {| store := store w;
        trace := trace w
          ++ [EvOnce (devicesRef number_to_string (get_prop body "currentUid"))
                (Throw e);
              EvConsole Error "Error during call acceptance process:"
                (Some (ArgExn e))] |}).
Proof.
  intros Hr. unfold try_catch, bind at 1, once. rewrite Hr. cbn.
  by rewrite <- List.app_assoc.
Qed.

Lemma after_commit_run env body w :
  once_rejects env = None ->
  let dref := devicesRef number_to_string (get_prop body "currentUid") in
  let allDevices := record (store w) dref in
  let acc := get_prop body "acceptedByDeviceId" in
  entries_readable allDevices = true ->
  exists toks tl,
    after_commit number_to_string env body w
    = (Ok (accepted_reply body),
       {| store := store w;
          trace := trace w ++ EvOnce dref (Ok allDevices) :: tl |})
    /\ sends tl = match toks with
                  | [] => []
                  | _ :: _ =>
                      [ringEndedMessage (get_prop body "callId") acc toks]
                  end
    /\ reads tl = [] /\ transactions tl = []
    /\ forall t, t ∈ toks <->
         exists d, d ∈ keys allDevices /\ strict_eq (JStr d) acc = false
           /\ truthy (get_prop (get_prop allDevices d) "fcmToken") = true
           /\ t = get_prop (get_prop allDevices d) "fcmToken".
Proof.
  intros Hr dref allDevices acc Hread.
  set (w1 := {| store := store w;
                trace := trace w ++ [EvOnce dref (Ok allDevices)] |}).
  destruct (collect_tokens_run allDevices acc (keys allDevices) [] w1)
    as (toks & Hc & Hmem).
  { intros k Hk _. by apply readable_entry. }
  destruct (notify_others_run env (get_prop body "callId") acc allDevices
              toks w1 Hc) as (tl & Hn & Hs & Hrd & Htx).
  exists toks, tl. split; [|done].
  unfold try_catch, bind at 1, once. rewrite Hr.
  fold dref. fold (record (store w) dref). fold allDevices.
  cbn [emit bind ret]. fold w1. unfold bind at 1. fold acc. rewrite Hn.
  cbn. by rewrite <- List.app_assoc.
Qed.
End Accept.

Lemma transacted_single ref r c lvl text arg b tl :
  Forall no_transaction tl ->
  transacted r c ([EvConsole lvl text arg; EvTransaction ref (Ok b)] ++ tl)
  = String.eqb ref r && Bool.eqb b c.
Proof.
  intros Htl. unfold transacted. rewrite transactions_app, (no_transactions tl Htl).
  simpl. by rewrite orb_false_r.
Qed.

Section AcceptCases.
Variable number_to_string : float -> string.

(** The four ways serving an accept request can go: not attempted,
    transaction rejected by the database, transition aborted, transition
    committed. *)
Lemma serve_accept_cases env body db :
  let o := serve number_to_string env (PostAcceptCall body) db in
  let ref := activeCallRef number_to_string (get_prop body "currentUid") in
  let acc := get_prop body "acceptedByDeviceId" in
  (fields_present accept_fields body = false
   /\ store_after o = db /\ effects o = []
   /\ (reply o = Throw (TypeError body "") \/ reply o = Ok invalid_accept))
  \/ (exists e,
        fields_present accept_fields body = true
        /\ transaction_rejects env = Some e
        /\ o = {| reply := Ok (accept_failed e);
                  store_after := db;
                  effects :=
                    [EvTransaction ref (Throw e);
                     EvConsole Error "Error during call acceptance process:"
                       (Some (ArgExn e))] |})
  \/ (fields_present accept_fields body = true
      /\ transaction_rejects env = None
      /\ ringing_for (get_prop body "callId") (record db ref) = false
      /\ exists text,
           o = {| reply :=
                    Ok {| status := 409;
                          json := ErrorBody
                            (if strict_eq (get_prop (record db ref) "status")
                                          (JStr "in_progress")
                             then "Call already accepted by another device."
                             else "Call no longer active or invalid call ID.") |};
                  store_after := db;
                  effects := [EvConsole Log text None;
                              EvTransaction ref (Ok false)] |})
  \/ (fields_present accept_fields body = true
      /\ transaction_rejects env = None
      /\ ringing_for (get_prop body "callId") (record db ref) = true
      /\ exists text tl r,
           let db' := <[ref := accepted acc (record db ref)]> db in
           let pre := [EvConsole Log text None;
                       EvTransaction ref (Ok true)] in
           after_commit number_to_string env body
             {| store := db'; trace := pre |}
           = (r, {| store := db'; trace := pre ++ tl |})
           /\ Forall (fanout_event (get_prop body "callId") acc) tl
           /\ o = {| reply := r; store_after := db';
                     effects := pre ++ tl |}).
Proof.
  intros o ref acc. subst o. unfold serve, route.
  destruct (fields_present accept_fields body) eqn:Hf.
  2:{ left. destruct (nullish body) eqn:Hb.
      - rewrite acceptCall_unanswered by done. simpl. auto.
      - rewrite acceptCall_invalid by done. simpl. auto. }
  right. destruct (transaction_rejects env) as [e|] eqn:Hr.
  { left. exists e. by rewrite (acceptCall_rejected _ _ _ _ e Hf Hr). }
  right. destruct (ringing_for (get_prop body "callId") (record db ref)) eqn:Hn.
  - right. split_and!; [done..|].
    destruct (acceptCall_committed number_to_string env body
                {| store := db; trace := [] |} Hf Hr Hn) as [text ->].
    cbn [store trace app]. fold ref acc.
    set (w1 := {| store := _; trace := _ |}).
    destruct (emits_after_commit number_to_string env body w1)
      as (tl & Hs & Ht & Htl).
    destruct (after_commit number_to_string env body w1) as [r [s t]] eqn:Hac.
    simpl in Hs, Ht. subst s t. exists text, tl, r.
    split; [exact Hac|]. split; [exact Htl|].
    subst acc. cbv zeta. by rewrite Hac.
  - left. split_and!; [done..|].
    destruct (acceptCall_aborted number_to_string env body
                {| store := db; trace := [] |} Hf Hr Hn) as [text ->].
    by exists text.
Qed.
End AcceptCases.

(* ================================================================== *)
(** ** Properties of POST /acceptCall *)
(* ================================================================== *)

Lemma strict_eq_str_iff v s : strict_eq v (JStr s) = false <-> v <> JStr s.
Proof.
  split.
  - intros H ->. simpl in H. by rewrite String.eqb_refl in H.
  - intros H. destruct (strict_eq v (JStr s)) eqn:E; [|done].
    by apply strict_eq_str in E.
Qed.

Lemma ringing_record callId (db : gmap string value) ref :
  ringing_for callId (record db ref) = true ->
  exists props,
    db !! ref = Some (JObj props)
    /\ get_prop (JObj props) "status" = JStr "ringing"
    /\ strict_eq (get_prop (JObj props) "callId") callId = true.
Proof.
  unfold ringing_for. intros H.
  apply andb_true_iff in H as [H Hs]. apply andb_true_iff in H as [Ht Hc].
  apply strict_eq_str in Hs.
  destruct (status_found_object _ _ Hs) as [props Hp].
  exists props. rewrite <- Hp. split_and!; [|done..].
  unfold record in *. destruct (db !! ref) as [old|]; simpl in *; by subst.
Qed.

Section AcceptProperties.
Variable number_to_string : float -> string.

Abbreviation serve' := (serve number_to_string).
Abbreviation activeCallRef' := (activeCallRef number_to_string).
Abbreviation devicesRef' := (devicesRef number_to_string).

(** C7.  An accept request that lacks one of [callId],
    [acceptedByDeviceId], [currentUid], [token], [channel] is answered
    with the 400 validation error and nothing is attempted: the database
    is neither read nor written (no transaction, no read of the device
    directory) and nothing is dispatched; the trace of external calls is
    empty.  The request is one with a parsed JSON body, as
    [express.json()] provides. *)
Theorem accept_missing_field env body db k :
  nullish body = false ->
  k ∈ accept_fields ->
  get_prop body k = JUndef ->
  serve' env (PostAcceptCall body) db
  = {| reply := Ok invalid_accept; store_after := db; effects := [] |}.
Proof.
  intros Hb Hk Hu.
  assert (Hf : fields_present accept_fields body = false).
  { destruct (fields_present accept_fields body) eqn:E; [|done].
    pose proof (fields_present_in _ _ _ E Hk) as Ht. by rewrite Hu in Ht. }
  unfold serve, route. by rewrite acceptCall_invalid.
Qed.

End AcceptProperties.

Lemma strict_eq_key_iff d v : strict_eq (JStr d) v = false <-> v <> JStr d.
Proof.
  split.
  - intros H ->. simpl in H. by rewrite String.eqb_refl in H.
  - intros H. destruct v; simpl; try done.
    apply String.eqb_neq. congruence.
Qed.

Section AfterCommit.
Variable number_to_string : float -> string.

Abbreviation serve'' := (serve number_to_string).

(** A commit shows in the trace only when the request was valid, the
    database answered and the record was ringing for this call. *)
Lemma accept_commit_inv env body db :
  let o := serve'' env (PostAcceptCall body) db in
  let ref := activeCallRef number_to_string (get_prop body "currentUid") in
  let acc := get_prop body "acceptedByDeviceId" in
  transacted ref true (effects o) = true ->
  fields_present accept_fields body = true
  /\ transaction_rejects env = None
  /\ ringing_for (get_prop body "callId") (record db ref) = true
  /\ exists text tl r,
       let db' := <[ref := accepted acc (record db ref)]> db in
       let pre := [EvConsole Log text None; EvTransaction ref (Ok true)] in
       after_commit number_to_string env body {| store := db'; trace := pre |}
       = (r, {| store := db'; trace := pre ++ tl |})
       /\ Forall (fanout_event (get_prop body "callId") acc) tl
       /\ o = {| reply := r; store_after := db'; effects := pre ++ tl |}.
Proof.
  intros o ref acc Hc.
  destruct (serve_accept_cases number_to_string env body db)
    as [(_ & _ & He & _)|[(e & _ & _ & Ho)|[(_ & _ & _ & text & Ho)|Hcase]]];
    try fold o in He; try fold o ref in Ho.
  - by rewrite He in Hc.
  - by rewrite Ho in Hc.
  - rewrite Ho in Hc. unfold transacted in Hc. simpl in Hc.
    by rewrite andb_false_r in Hc.
  - exact Hcase.
Qed.

(** C4, as the code has it.  Once the transition has committed and the
    device directory has been read (its entries being readable values),
    the reply is the 200 success response carrying [callId],
    [acceptedByDeviceId], [token] and [channel], whatever the push
    transport does: a dispatch that throws is caught by its own handler.
    A read of the directory that the database rejects is not caught
    there: the same request is then answered with the 500 internal
    error. *)
Theorem commit_answers_success send body db :
  let env := {| transaction_rejects := None; once_rejects := None;
                sendEachForMulticast := send |} in
  let o := serve'' env (PostAcceptCall body) db in
  let ref := activeCallRef number_to_string (get_prop body "currentUid") in
  let dref := devicesRef number_to_string (get_prop body "currentUid") in
  transacted ref true (effects o) = true ->
  entries_readable (record db dref) = true ->
  reply o = Ok (accepted_reply body)
  /\ forall e,
       reply (serve'' {| transaction_rejects := None;
                         once_rejects := Some e;
                         sendEachForMulticast := send |}
                (PostAcceptCall body) db)
       = Ok (accept_failed e).
Proof.
  intros env o ref dref Hc Hread.
  destruct (accept_commit_inv env body db Hc)
    as (Hf & _ & Hn & text & tl & r & Hac & _ & Ho).
  fold o ref in Ho, Hn, Hac. split.
  - rewrite Ho. cbn [reply].
    destruct (after_commit_run number_to_string env body
                {| store := <[ref := accepted (get_prop body "acceptedByDeviceId")
                                        (record db ref)]> db;
                   trace := [EvConsole Log text None;
                             EvTransaction ref (Ok true)] |} eq_refl)
      as (toks & tl' & Hrun & _).
    { cbn [store]. fold dref. unfold record.
      rewrite lookup_insert_ne by apply refs_differ. exact Hread. }
    rewrite Hrun in Hac. by injection Hac as <- _.
  - intros e. unfold serve, route.
    destruct (acceptCall_committed number_to_string
                {| transaction_rejects := None; once_rejects := Some e;
                   sendEachForMulticast := send |} body
                {| store := db; trace := [] |} Hf eq_refl Hn) as [text' ->].
    by rewrite (after_commit_read_rejected _ _ _ _ e).
Qed.

(** C5.  After a commit, with the device directory read and its entries
    readable values, the tokens of the stop-ringing fan-out are exactly
    the [fcmToken]s of the directory keys [d] other than
    [acceptedByDeviceId] whose entry has a (truthy) [fcmToken]: the one
    message dispatched is the [ring_ended] message whose [tokens] field is
    the list of these tokens, every message dispatched has that list as
    its [tokens], and nothing at all is dispatched when there is no such
    token, in particular when the directory is absent. *)
Theorem fanout_targets env body db :
  let o := serve'' env (PostAcceptCall body) db in
  let ref := activeCallRef number_to_string (get_prop body "currentUid") in
  let dref := devicesRef number_to_string (get_prop body "currentUid") in
  let acc := get_prop body "acceptedByDeviceId" in
  let allDevices := record db dref in
  transacted ref true (effects o) = true ->
  once_rejects env = None ->
  entries_readable allDevices = true ->
  exists toks,
    (forall t, t ∈ toks <->
       exists d, d ∈ keys allDevices /\ acc <> JStr d
         /\ truthy (get_prop (get_prop allDevices d) "fcmToken") = true
         /\ t = get_prop (get_prop allDevices d) "fcmToken")
    /\ sends (effects o)
       = match toks with
         | [] => []
         | _ :: _ =>
             [{| data := [("type", JStr "ring_ended");
                          ("callId", get_prop body "callId");
                          ("acceptedByDeviceId", acc)];
                 tokens := toks;
                 priority := "high";
                 android_priority := "high";
                 content_available := true |}]
         end
    /\ (forall m, m ∈ sends (effects o) -> tokens m = toks)
    /\ (truthy allDevices = false -> sends (effects o) = []).
Proof.
  intros o ref dref acc allDevices Hc Hr Hread.
  destruct (accept_commit_inv env body db Hc)
    as (Hf & _ & Hn & text & tl & r & Hac & _ & Ho).
  fold o ref acc in Ho, Hn, Hac.
  destruct (after_commit_run number_to_string env body
              {| store := <[ref := accepted acc (record db ref)]> db;
                 trace := [EvConsole Log text None;
                           EvTransaction ref (Ok true)] |} Hr)
    as (toks & tl' & Hrun & Hs & _ & _ & Hmem).
  { cbn [store]. fold dref. unfold record.
    rewrite lookup_insert_ne by apply refs_differ. exact Hread. }
  pose proof (eq_trans (eq_sym Hrun) Hac) as Heq.
  injection Heq as _ Htl. subst tl.
  assert (Hdir : record (<[ref := accepted acc (record db ref)]> db) dref
                 = allDevices).
  { unfold record. by rewrite lookup_insert_ne by apply refs_differ. }
  assert (Hmem' : forall t, t ∈ toks <->
            exists d, d ∈ keys allDevices /\ strict_eq (JStr d) acc = false
              /\ truthy (get_prop (get_prop allDevices d) "fcmToken") = true
              /\ t = get_prop (get_prop allDevices d) "fcmToken").
  { intros t. rewrite <- Hdir. apply Hmem. }
  clear Hmem.
  assert (Hsends : sends (effects o)
                   = match toks with
                     | [] => []
                     | _ :: _ =>
                         [ringEndedMessage (get_prop body "callId") acc toks]
                     end).
  { rewrite Ho. cbn [effects]. rewrite sends_app. simpl. exact Hs. }
  exists toks. split_and!.
  - intros t. rewrite Hmem'. by setoid_rewrite strict_eq_key_iff.
  - exact Hsends.
  - intros m. rewrite Hsends. destruct toks as [|t toks].
    + intros Hm. by apply elem_of_nil in Hm.
    + intros Hm. apply list_elem_of_singleton in Hm. by subst m.
  - intros Hfalsy. rewrite Hsends.
    destruct toks as [|t toks]; [done|].
    destruct (proj1 (Hmem' t) (list_elem_of_here _ _)) as (d & Hd & _).
    unfold keys in Hd. rewrite (falsy_no_props _ Hfalsy) in Hd.
    by apply elem_of_nil in Hd.
Qed.
End AfterCommit.

Section Passthrough.
Variable number_to_string : float -> string.

(** What a valid accept request does to the database and to the outside
    is decided by [callId], [acceptedByDeviceId] and [currentUid]. *)
Lemma acceptCall_world_agree env b1 b2 w :
  get_prop b1 "callId" = get_prop b2 "callId" ->
  get_prop b1 "acceptedByDeviceId" = get_prop b2 "acceptedByDeviceId" ->
  get_prop b1 "currentUid" = get_prop b2 "currentUid" ->
  fields_present accept_fields b1 = true ->
  fields_present accept_fields b2 = true ->
  (acceptCall number_to_string env b1 w).2
  = (acceptCall number_to_string env b2 w).2.
Proof.
  intros Hc Ha Hu Hf1 Hf2. unfold acceptCall, destructure.
  rewrite (accept_fields_body _ Hf1), (accept_fields_body _ Hf2).
  unfold bind at 1 6. unfold ret at 1 7.
  rewrite !accept_guard, Hf1, Hf2. cbn [negb].
  rewrite Hc, Ha, Hu. unfold try_catch, bind.
  destruct (transaction env _ _ w) as [[res|e] w1]; [|done].
  destruct (committed res); cbn [negb].
  - destruct (once env _ w1) as [[allDevices|e] w2]; [|done].
    by destruct (notify_others env _ _ allDevices w2) as [[[]|e] w3].
  - by destruct (truthy (snapshot res) && _).
Qed.

(** C10.  Two accept requests that agree on [callId],
    [acceptedByDeviceId] and [currentUid] and both commit, served from
    the same database with the same collaborators, make the same external
    calls and so dispatch the same messages, whatever their [token] and
    [channel] are; the data of every message dispatched is exactly
    [type = "ring_ended"], [callId] and [acceptedByDeviceId]. *)
Theorem ring_ended_ignores_passthrough env db b1 b2 :
  let o1 := serve number_to_string env (PostAcceptCall b1) db in
  let o2 := serve number_to_string env (PostAcceptCall b2) db in
  let ref := activeCallRef number_to_string (get_prop b1 "currentUid") in
  get_prop b1 "callId" = get_prop b2 "callId" ->
  get_prop b1 "acceptedByDeviceId" = get_prop b2 "acceptedByDeviceId" ->
  get_prop b1 "currentUid" = get_prop b2 "currentUid" ->
  transacted ref true (effects o1) = true ->
  transacted ref true (effects o2) = true ->
  sends (effects o1) = sends (effects o2)
  /\ effects o1 = effects o2
  /\ forall m, m ∈ sends (effects o1) ->
       data m = [("type", JStr "ring_ended");
                 ("callId", get_prop b1 "callId");
                 ("acceptedByDeviceId", get_prop b1 "acceptedByDeviceId")].
Proof.
  intros o1 o2 ref Hc Ha Hu H1 H2.
  destruct (accept_commit_inv number_to_string env b1 db H1)
    as (Hf1 & _ & _ & text & tl & r & _ & Htl & Ho).
  fold o1 in Ho. unfold ref in H2. rewrite Hu in H2.
  destruct (accept_commit_inv number_to_string env b2 db H2)
    as (Hf2 & _).
  assert (Heff : effects o1 = effects o2).
  { pose proof (acceptCall_world_agree env b1 b2
                  {| store := db; trace := [] |} Hc Ha Hu Hf1 Hf2) as Hw.
    unfold o1, o2, serve, route.
    destruct (acceptCall number_to_string env b1 _) as [r1 w1].
    destruct (acceptCall number_to_string env b2 _) as [r2 w2].
    simpl in *. by subst. }
  split_and!; [by rewrite Heff|done|].
  intros m Hm. rewrite Ho in Hm. cbn [effects] in Hm.
  rewrite sends_app in Hm. simpl in Hm.
  by destruct (fanout_sends _ _ _ _ Htl Hm) as [toks ->].
Qed.
End Passthrough.

(* ================================================================== *)
(** ** At most one acceptance *)
(* ================================================================== *)

Abbreviation already_accepted :=
  {| status := 409;
     json := ErrorBody "Call already accepted by another device." |}.

Section Once.
Variable number_to_string : float -> string.

(** The record at [ref] shows an accepted call. *)
Abbreviation in_progress db ref :=
  (get_prop (record db ref) "status" = JStr "in_progress").

Lemma commit_in_progress env body db ref :
  transacted ref true
    (effects (serve number_to_string env (PostAcceptCall body) db)) = true ->
  in_progress
    (store_after (serve number_to_string env (PostAcceptCall body) db)) ref.
Proof.
  intros Hc.
  destruct (serve_accept_cases number_to_string env body db)
    as [(_ & _ & He & _)|[(e & _ & _ & Ho)|[(_ & _ & _ & text & Ho)
        |(_ & _ & Hn & text & tl & r & _ & Htl & Ho)]]].
  - by rewrite He in Hc.
  - by rewrite Ho in Hc.
  - rewrite Ho in Hc. unfold transacted in Hc. simpl in Hc.
    by rewrite !andb_false_r in Hc.
  - rewrite Ho in Hc |- *. cbn [effects store_after] in *.
    rewrite transacted_single in Hc
      by (eapply Forall_impl; [exact Htl|apply fanout_no_transaction]).
    apply andb_true_iff in Hc as [Href%String.eqb_eq _]. subst ref.
    destruct (ringing_record _ _ _ Hn) as (props & Hold & _).
    unfold record. rewrite lookup_insert_eq, Hold. cbn [default from_option id].
    by rewrite get_set_prop_other, get_set_prop_same.
Qed.

(** Once the record at [ref] shows an accepted call, no request commits
    there any more or changes it, and an accept attempt on it is told so. *)
Lemma serve_in_progress env req db ref :
  in_progress db ref ->
  let o := serve number_to_string env req db in
  store_after o !! ref = db !! ref
  /\ transacted ref true (effects o) = false
  /\ forall body,
       req = PostAcceptCall body ->
       activeCallRef number_to_string (get_prop body "currentUid") = ref ->
       fields_present accept_fields body = true ->
       transaction_rejects env = None ->
       transacted ref false (effects o) = true
       /\ reply o = Ok already_accepted.
Proof.
  intros Hin o. destruct req as [body|body|].
  - subst o. unfold serve, route.
    destruct (quiet_sendRingingNotification env body
                {| store := db; trace := [] |}) as (tl & Hs & Ht & Htl).
    destruct (sendRingingNotification env body _) as [r w].
    simpl in *. subst. unfold transacted.
    by rewrite (no_transactions _ Htl).
  - destruct (serve_accept_cases number_to_string env body db)
      as [(Hf & Hs & He & _)|[(e & _ & Hr & Ho)|[(_ & _ & _ & text & Ho)
          |(_ & _ & Hn & text & tl & r & _ & Htl & Ho)]]];
      try fold o in Hs, He; try fold o in Ho.
    + rewrite Hs, He. split_and!; [done..|].
      intros ? [= <-] _ ?. congruence.
    + rewrite Ho. split_and!; [done..|].
      intros ? [= <-] _ _ ?. congruence.
    + rewrite Ho. cbn [store_after effects reply]. split_and!; [done| |].
      * unfold transacted. simpl. by rewrite !andb_false_r.
      * intros ? [= <-] Href _ _. rewrite Href, Hin.
        unfold transacted. simpl.
        by rewrite String.eqb_refl.
    + rewrite Ho. cbn [store_after effects reply].
      assert (Hne : activeCallRef number_to_string
                      (get_prop body "currentUid") <> ref).
      { intros Href. rewrite Href in Hn.
        destruct (ringing_record _ _ _ Hn) as (props & Hold & Hst & _).
        unfold record in Hin. rewrite Hold in Hin. simpl in Hin.
        congruence. }
      split_and!.
      * by rewrite lookup_insert_ne.
      * rewrite transacted_single
          by (eapply Forall_impl; [exact Htl|apply fanout_no_transaction]).
        by apply String.eqb_neq in Hne as ->.
      * intros ? [= <-] Href. by destruct Hne.
  - subst o. by unfold serve, route.
Qed.

Lemma serve_all_in_progress db reqs ref :
  in_progress db ref ->
  forall j oj,
    serve_all number_to_string db reqs !! j = Some oj ->
    store_after oj !! ref = db !! ref
    /\ transacted ref true (effects oj) = false
    /\ forall env body,
         reqs !! j = Some (env, PostAcceptCall body) ->
         activeCallRef number_to_string (get_prop body "currentUid") = ref ->
         fields_present accept_fields body = true ->
         transaction_rejects env = None ->
         transacted ref false (effects oj) = true
         /\ reply oj = Ok already_accepted.
Proof.
  revert db. induction reqs as [|[env req] reqs IH]; intros db Hin j oj Hj.
  - by destruct j.
  - destruct (serve_in_progress env req db ref Hin) as (Hs & Hc & Hr).
    destruct j as [|j]; simpl in Hj.
    + injection Hj as <-. split_and!; [done..|].
      intros env' body [= <- ->]. by apply Hr.
    + assert (Hin' : in_progress
                       (store_after (serve number_to_string env req db)) ref).
      { unfold record in *. by rewrite Hs. }
      destruct (IH _ Hin' j oj Hj) as (Hs' & Hc' & Hr').
      split_and!; [by rewrite Hs'|done|]. exact Hr'.
Qed.

(** C1.  In any sequence of requests served one after the other, once an
    accept attempt has committed on the record at [ref] -- moved it from
    ['ringing'] to ['in_progress'] -- no later request commits there: the
    record stays exactly as the commit left it, [acceptedByDeviceId]
    included, and every later valid accept attempt on that record that
    the database answers, by the same device or another, is reported as
    not committed and answered with the 409 "Call already accepted by
    another device.". *)
Theorem accept_commits_once db0 reqs i j oi oj ref :
  serve_all number_to_string db0 reqs !! i = Some oi ->
  serve_all number_to_string db0 reqs !! j = Some oj ->
  i < j ->
  transacted ref true (effects oi) = true ->
  transacted ref true (effects oj) = false
  /\ store_after oj !! ref = store_after oi !! ref
  /\ in_progress (store_after oj) ref
  /\ forall env body,
       reqs !! j = Some (env, PostAcceptCall body) ->
       activeCallRef number_to_string (get_prop body "currentUid") = ref ->
       fields_present accept_fields body = true ->
       transaction_rejects env = None ->
       transacted ref false (effects oj) = true
       /\ reply oj = Ok already_accepted.
Proof.
  revert db0 i j. induction reqs as [|[env req] reqs IH];
    intros db0 i j Hi Hj Hlt Hc.
  - by destruct i.
  - destruct j as [|j]; [lia|]. simpl in Hj.
    destruct i as [|i]; simpl in Hi.
    + injection Hi as <-.
      assert (Hin : in_progress
                      (store_after (serve number_to_string env req db0)) ref).
      { destruct req as [body|body|].
        - destruct (quiet_sendRingingNotification env body
                      {| store := db0; trace := [] |})
            as (tl & _ & Ht & Htl).
          unfold serve, route in Hc.
          destruct (sendRingingNotification env body _) as [r w].
          simpl in *. subst. unfold transacted in Hc.
          by rewrite (no_transactions _ Htl) in Hc.
        - by apply commit_in_progress.
        - done. }
      destruct (serve_all_in_progress _ reqs ref Hin j oj Hj)
        as (Hs & Hno & Hr).
      split_and!; [done..| |exact Hr].
      unfold record in *. by rewrite Hs.
    + apply (IH _ i j Hi Hj); [lia|done].
Qed.
End Once.

(* ================================================================== *)
(** ** Properties of POST /sendRingingNotification *)
(* ================================================================== *)

Abbreviation invalid_tokens :=
  {| status := 400;
     json := ErrorBody "fcmTokens (array) is required and must not be empty" |}.

Abbreviation incomplete_ringing :=
  {| status := 400;
     json := ErrorBody
       "callerId, callId, type, channel, and token are all required for a ringing notification." |}.

(** The message of a ringing request. *)
Abbreviation ringing_message_of body :=
  (ringingMessage (get_prop body "type") (get_prop body "callerId")
     (get_prop body "callId") (get_prop body "channel")
     (get_prop body "token") (get_prop body "fcmTokens")).

Lemma ringing_guard body :
  negb (truthy (get_prop body "callerId"))
  || negb (truthy (get_prop body "callId"))
  || negb (truthy (get_prop body "type"))
  || negb (truthy (get_prop body "channel"))
  || negb (truthy (get_prop body "token"))
  = negb (fields_present ringing_fields body).
Proof.
  unfold fields_present, ringing_fields; simpl.
  repeat destruct (truthy _); reflexivity.
Qed.

Lemma count_succeeded rs :
  length (List.filter (fun r => success r) rs)
  = count_occ Bool.bool_dec (map success rs) true.
Proof.
  induction rs as [|r rs IH]; simpl; [done|].
  destruct (success r); simpl; by rewrite IH.
Qed.

Lemma count_failed rs :
  length (List.filter (fun r => negb (success r)) rs)
  = count_occ Bool.bool_dec (map success rs) false.
Proof.
  induction rs as [|r rs IH]; simpl; [done|].
  destruct (success r); simpl; by rewrite IH.
Qed.

Lemma sendRingingNotification_valid env body w :
  ringing_valid body = true ->
  sendRingingNotification env body w
  = match sendEachForMulticast env (ringing_message_of body) with
    | Ok r =>
        (Ok {| status := 200;
               json := RingingSent "Ringing notifications sent successfully"
                 (count_occ Bool.bool_dec (map success (responses r)) true)
                 (count_occ Bool.bool_dec (map success (responses r)) false)
                 (responses r) |},
         {| store := store w;
            trace := trace w
              ++ [EvSend (ringing_message_of body) (Ok r);
                  EvConsole Log "Successfully sent multicast ringing message:"
                    (Some (ArgBatch r))]
              ++ (if 0 <? count_occ Bool.bool_dec (map success (responses r))
                                    false
                  then [EvConsole Warn "Failed to send ringing to some tokens:"
                          (Some (ArgResponses
                                   (List.filter (fun r => negb (success r))
                                                (responses r))))]
                  else []) |})
    | Throw e =>
        (Ok {| status := 500;
               json := ErrorDetails "Failed to send ringing notifications" e |},
         {| store := store w;
            trace := trace w
              ++ [EvSend (ringing_message_of body) (Throw e);
                  EvConsole Error "Error sending multicast ringing message:"
                    (Some (ArgExn e))] |})
    end.
Proof.
  unfold ringing_valid. intros Hv.
  apply andb_true_iff in Hv as [Hv Hf]. apply andb_true_iff in Hv as [Hv Hl].
  apply andb_true_iff in Hv as [Ht Ha].
  assert (Hb : nullish body = false).
  { destruct (nullish body) eqn:E; [|done]. by rewrite get_prop_nullish in Ht. }
  unfold sendRingingNotification, destructure. rewrite Hb.
  unfold bind at 1. unfold ret at 1.
  rewrite Ht, Ha, ringing_guard, Hf. apply negb_true_iff in Hl. rewrite Hl.
  cbn [negb orb]. unfold try_catch, bind at 1, send.
  destruct (sendEachForMulticast env _) as [r|e]; cbn.
  - rewrite count_succeeded, count_failed.
    destruct (count_occ Bool.bool_dec (map success (responses r)) false);
      cbn; by rewrite <- ?List.app_assoc.
  - by rewrite <- List.app_assoc.
Qed.

Section Ringing.
Variable number_to_string : float -> string.

(** C9.  A ringing request whose [fcmTokens] is absent, is not an array,
    or is the empty array is answered with the 400 validation error and
    nothing is dispatched: the trace of external calls is empty.  (In the
    stop-ringing fan-out an empty list of targets is a silent no-op: the
    block returns without a call.) *)
Theorem ringing_requires_tokens env body db :
  nullish body = false ->
  get_prop body "fcmTokens" = JUndef
  \/ is_array (get_prop body "fcmTokens") = false
  \/ get_prop body "fcmTokens" = JArr [] ->
  serve number_to_string env (PostSendRingingNotification body) db
  = {| reply := Ok invalid_tokens; store_after := db; effects := [] |}
  /\ forall callId acc allDevices w,
       collect_tokens allDevices acc (keys allDevices) [] w = (Ok [], w) ->
       notify_others env callId acc allDevices w = (Ok tt, w).
Proof.
  intros Hb Htok. split.
  - unfold serve, route, sendRingingNotification, destructure. rewrite Hb.
    unfold bind at 1. unfold ret at 1.
    assert (Hguard :
      negb (truthy (get_prop body "fcmTokens"))
      || negb (is_array (get_prop body "fcmTokens"))
      || (length (elements (get_prop body "fcmTokens")) =? 0) = true).
    { destruct Htok as [->|[->| ->]]; by rewrite ?orb_true_r. }
    by rewrite Hguard.
  - intros callId acc allDevices w Hc. unfold notify_others.
    destruct (truthy allDevices); [|done].
    unfold bind. by rewrite Hc.
Qed.
End Ringing.

Lemma count_total rs :
  count_occ Bool.bool_dec (map success rs) true
  + count_occ Bool.bool_dec (map success rs) false
  = length rs.
Proof.
  induction rs as [|r rs IH]; simpl; [done|].
  destruct (success r); simpl; lia.
Qed.

Lemma sendRingingNotification_invalid env body w :
  ringing_valid body = false ->
  sendRingingNotification env body w = (Throw (TypeError body ""), w)
  \/ sendRingingNotification env body w = (Ok invalid_tokens, w)
  \/ sendRingingNotification env body w = (Ok incomplete_ringing, w).
Proof.
  unfold ringing_valid, sendRingingNotification, destructure. intros Hv.
  destruct (nullish body); [by left|right].
  unfold bind at 1. unfold ret at 1.
  destruct (truthy (get_prop body "fcmTokens")); [|by left].
  destruct (is_array (get_prop body "fcmTokens")); [|by left].
  destruct (length (elements (get_prop body "fcmTokens")) =? 0); [by left|].
  cbn [andb negb] in Hv. right. by rewrite ringing_guard, Hv.
Qed.

Section RingingDelivery.
Variable number_to_string : float -> string.

(** C8.  When a valid ringing request is dispatched and the push
    transport returns per-token outcomes, the reply is a 200 whatever the
    outcomes are -- some or all of them failures --, with [successCount]
    the number of tokens reached, [failureCount] the number of tokens not
    reached, and the outcomes as [details]; the one message dispatched is
    the request's.  On this endpoint a 500 is only ever the reply to a
    dispatch that threw. *)
Theorem ringing_partial_failure env body db r :
  let o := serve number_to_string env (PostSendRingingNotification body) db in
  ringing_valid body = true ->
  sendEachForMulticast env (ringing_message_of body) = Ok r ->
  reply o
  = Ok {| status := 200;
          json := RingingSent "Ringing notifications sent successfully"
            (count_occ Bool.bool_dec (map success (responses r)) true)
            (count_occ Bool.bool_dec (map success (responses r)) false)
            (responses r) |}
  /\ count_occ Bool.bool_dec (map success (responses r)) true
     + count_occ Bool.bool_dec (map success (responses r)) false
     = length (responses r)
  /\ sends (effects o) = [ringing_message_of body]
  /\ store_after o = db
  /\ forall env' body' db' resp,
       reply (serve number_to_string env'
                (PostSendRingingNotification body') db') = Ok resp ->
       status resp = 500 ->
       exists e, sendEachForMulticast env' (ringing_message_of body')
                 = Throw e.
Proof.
  intros o Hv Hr. subst o. unfold serve, route.
  rewrite (sendRingingNotification_valid _ _ _ Hv), Hr.
  cbn [reply effects store_after store trace].
  split_and!; [done|apply count_total| |done|].
  - rewrite app_nil_l, sends_app. simpl.
    by destruct (0 <? _).
  - intros env' body' db' resp. 
    destruct (ringing_valid body') eqn:Hv'.
    + rewrite (sendRingingNotification_valid _ _ _ Hv').
      destruct (sendEachForMulticast env' _) as [r'|e]; simpl.
      * by intros [= <-].
      * intros _ _. by exists e.
    + destruct (sendRingingNotification_invalid env' body'
                  {| store := db'; trace := [] |} Hv')
        as [-> |[-> | ->]]; simpl; [done|by intros [= <-]..].
Qed.
End RingingDelivery.

(* ================================================================== *)
(** ** The accept handler, whatever the SDK does *)
(* ================================================================== *)

Lemma gbind_ok {St A B} (m : Sdk.G St A) (k : A -> Sdk.G St B) s b s2 :
  Sdk.gbind m k s = (Ok b, s2) ->
  exists a s1, m s = (Ok a, s1) /\ k a s1 = (Ok b, s2).
Proof.
  unfold Sdk.gbind. destruct (m s) as [[a|e] s1]; [|done].
  intros H. by exists a, s1.
Qed.

Lemma gcatch_answers {St A} (m : Sdk.G St A) (h : exn -> Sdk.G St A)
    (P : A -> Prop) s :
  (forall a s1, m s = (Ok a, s1) -> P a) ->
  (forall e s0, exists a s1, h e s0 = (Ok a, s1) /\ P a) ->
  exists a s1, Sdk.gcatch m h s = (Ok a, s1) /\ P a.
Proof.
  intros Hm Hh. unfold Sdk.gcatch. destruct (m s) as [[a|e] s1] eqn:E.
  - exists a, s1. split; [done|]. by apply (Hm a s1).
  - apply Hh.
Qed.

Section AnySdk.
Variable number_to_string : float -> string.
Variable St : Type.
Variable p : Sdk.platform St.

Abbreviation template' := (Sdk.template number_to_string).
Abbreviation update_of body :=
  (Sdk.accept_update number_to_string p (get_prop body "callId")
     (get_prop body "acceptedByDeviceId")).

(** The handler up to the transaction, for a request that passes the
    validation and whose line 103 does not throw. *)
Lemma acceptCall_past_ref body uid s :
  fields_present accept_fields body = true ->
  template' (get_prop body "currentUid") = Ok uid ->
  Sdk.sdk_ref p ("calls/" ++ uid ++ "/activeCall") = None ->
  Sdk.acceptCall number_to_string p body s
  = Sdk.gcatch
      (Sdk.gbind
         (Sdk.sdk_transaction p ("calls/" ++ uid ++ "/activeCall")
            (update_of body))
         (Sdk.after_transaction number_to_string p (get_prop body "callId")
            (get_prop body "acceptedByDeviceId")
            (get_prop body "currentUid") (get_prop body "token")
            (get_prop body "channel")))
      (fun error =>
         Sdk.gbind
           (Sdk.say p Error "Error during call acceptance process:"
              (Some (ArgExn error)))
           (fun _ => Sdk.gret (accept_failed error))) s.
Proof.
  intros Hf Hu Hr. unfold Sdk.acceptCall.
  rewrite (accept_fields_body _ Hf). unfold Sdk.gbind at 1. cbn [Sdk.gret].
  rewrite accept_guard, Hf. cbn [negb].
  unfold Sdk.gbind at 1, Sdk.lift. rewrite Hu.
  unfold Sdk.gbind at 1, Sdk.ref. rewrite Hr. by cbn [Sdk.gret].
Qed.

(** The update function on [null]: it returns [undefined]. *)
Lemma accept_update_null callId acc id s :
  template' callId = Ok id ->
  Sdk.accept_update number_to_string p callId acc JNull s
  = (Ok None,
     Sdk.sdk_console p Log
       ("Transaction aborted for callId " ++ id
        ++ ": Node missing or ID mismatch.") None s).
Proof.
  intros Hid. unfold Sdk.accept_update. cbn [truthy negb orb].
  unfold Sdk.gbind, Sdk.lift. by rewrite Hid.
Qed.


(** C2, on an SDK that starts a transaction on what it holds locally.
    When the SDK holds no value for the record ([null]), the update
    function returns [undefined] at line 110 and the accept request is
    answered with the 409 "Call no longer active or invalid call ID.",
    whatever the database holds: a stored record that is ringing for the
    requested [callId] is not accepted. *)
Theorem uncached_record_not_accepted body uid id s :
  fields_present accept_fields body = true ->
  template' (get_prop body "currentUid") = Ok uid ->
  Sdk.sdk_ref p ("calls/" ++ uid ++ "/activeCall") = None ->
  template' (get_prop body "callId") = Ok id ->
  Sdk.aborts_on_cached p JNull ->
  exists s1,
    Sdk.acceptCall number_to_string p body s
    = (Ok {| status := 409;
             json := ErrorBody "Call no longer active or invalid call ID." |},
       s1).
Proof.
  intros Hf Hu Hr Hid Hcold.
  destruct (Hcold ("calls/" ++ uid ++ "/activeCall")%string (update_of body) s _
              (accept_update_null _ (get_prop body "acceptedByDeviceId") id s
                 Hid)) as [s1 Htx].
  exists s1. rewrite (acceptCall_past_ref body uid s Hf Hu Hr).
  unfold Sdk.gcatch, Sdk.gbind. by rewrite Htx.
Qed.

(** X2.  Line 103 is the one place from which an exception leaves the
    accept handler once the body is there.  A request that fails the
    validation is answered with the 400 before it.  When the template
    literal or [db.ref] of line 103 throws, the exception leaves the
    handler with nothing asked of the SDK.  Past line 103 the handler
    always answers, with 200, 409 or 500, whatever the SDK does then:
    every later exception, those of the update function and of the second
    [db.ref] included, is caught. *)
Theorem accept_answers_past_line_103 body s :
  (nullish body = false ->
   fields_present accept_fields body = false ->
   Sdk.acceptCall number_to_string p body s = (Ok invalid_accept, s))
  /\ (fields_present accept_fields body = true ->
      (forall e,
         template' (get_prop body "currentUid") = Throw e ->
         Sdk.acceptCall number_to_string p body s = (Throw e, s))
      /\ (forall uid e,
            template' (get_prop body "currentUid") = Ok uid ->
            Sdk.sdk_ref p ("calls/" ++ uid ++ "/activeCall") = Some e ->
            Sdk.acceptCall number_to_string p body s = (Throw e, s))
      /\ (forall uid,
            template' (get_prop body "currentUid") = Ok uid ->
            Sdk.sdk_ref p ("calls/" ++ uid ++ "/activeCall") = None ->
            exists resp s1,
              Sdk.acceptCall number_to_string p body s = (Ok resp, s1)
              /\ (status resp = 200 \/ status resp = 409
                  \/ status resp = 500))).
Proof.
  split.
  - intros Hb Hf. unfold Sdk.acceptCall. rewrite Hb.
    unfold Sdk.gbind at 1. cbn [Sdk.gret]. by rewrite accept_guard, Hf.
  - intros Hf. split_and!.
    + intros e Hu. unfold Sdk.acceptCall.
      rewrite (accept_fields_body _ Hf). unfold Sdk.gbind at 1.
      cbn [Sdk.gret]. rewrite accept_guard, Hf. cbn [negb].
      unfold Sdk.gbind, Sdk.lift. by rewrite Hu.
    + intros uid e Hu Hr. unfold Sdk.acceptCall.
      rewrite (accept_fields_body _ Hf). unfold Sdk.gbind at 1.
      cbn [Sdk.gret]. rewrite accept_guard, Hf. cbn [negb].
      unfold Sdk.gbind at 1, Sdk.lift. rewrite Hu.
      unfold Sdk.gbind, Sdk.ref. by rewrite Hr.
    + intros uid Hu Hr. rewrite (acceptCall_past_ref body uid s Hf Hu Hr).
      apply gcatch_answers.
      * intros resp s1 Hrun.
        apply gbind_ok in Hrun as (res & s0 & _ & Hafter).
        unfold Sdk.after_transaction in Hafter.
        destruct (committed res); cbn [negb] in Hafter.
        -- apply gbind_ok in Hafter as (? & ? & _ & Hafter).
           apply gbind_ok in Hafter as (? & ? & _ & Hafter).
           apply gbind_ok in Hafter as (? & ? & _ & Hafter).
           apply gbind_ok in Hafter as (? & ? & _ & Hafter).
           injection Hafter as <- _. by left.
        -- destruct (truthy _ && _); injection Hafter as <- _;
             right; by left.
      * intros e s0. eexists _, _. split; [reflexivity|].
        right. by right.
Qed.
End AnySdk.

(** The SDK without a cached value does start its transactions on
    [null]. *)
Lemma cold_firebase_aborts refuses env :
  Sdk.aborts_on_cached (Sdk.cold_firebase refuses env) JNull.
Proof.
  intros path update s s1 Hu. cbn [Sdk.sdk_transaction Sdk.cold_firebase].
  unfold Sdk.cold_transaction. rewrite Hu. by eexists.
Qed.

(* ================================================================== *)
(** ** The scenarios, run *)
(* ================================================================== *)

Module Runs.
Import Scenario.

Abbreviation call_ref := "calls/u1/activeCall"%string.

(** Device [d1] accepts, then retries: the retry is refused. *)
Lemma retry_is_refused :
  let b := accept_by "d1" "tok" "ch" in
  let o1 := serve no_numbers delivering (PostAcceptCall b) db in
  let o2 := serve no_numbers delivering (PostAcceptCall b) (store_after o1) in
  transacted call_ref true (effects o1) = true
  /\ transacted call_ref true (effects o2) = false
  /\ store_after o2 !! call_ref = store_after o1 !! call_ref
  /\ reply o2 = Ok already_accepted.
Proof.
  intros b o1 o2. split; [vm_compute; reflexivity|].
  destruct (accept_commits_once no_numbers db
              [(delivering, PostAcceptCall b); (delivering, PostAcceptCall b)]
              0 1 o1 o2 call_ref eq_refl eq_refl (le_n 1) eq_refl)
    as (H1 & H2 & _ & H4).
  split; [exact H1|]. split; [exact H2|].
  apply (H4 delivering b); reflexivity.
Defined.

(** The stored record is ringing for [c1], the SDK holds nothing for its
    location: the accept of [d1] is refused and the record stays as it
    is. *)
Lemma ringing_call_refused_uncached :
  let b := accept_by "d1" "tok" "ch" in
  let sdk := Sdk.cold_firebase Sdk.refuses_nothing delivering in
  let run := Sdk.acceptCall no_numbers sdk b {| store := db; trace := [] |} in
  ringing_for (JStr "c1") (record db call_ref) = true
  /\ store run.2 = db
  /\ exists w,
       run = (Ok {| status := 409;
                    json := ErrorBody
                      "Call no longer active or invalid call ID." |}, w).
Proof.
  intros b sdk run. split; [vm_compute; reflexivity|].
  split; [vm_compute; reflexivity|].
  apply (uncached_record_not_accepted no_numbers world sdk b "u1" "c1").
  - reflexivity.
  - reflexivity.
  - reflexivity.
  - reflexivity.
  - apply cold_firebase_aborts.
Defined.


(** The push transport is down: the accept is answered with success all
    the same. *)
Lemma accepted_despite_dispatch_failure :
  let b := accept_by "d1" "tok" "ch" in
  let o := serve no_numbers
             {| transaction_rejects := None; once_rejects := None;
                sendEachForMulticast := unreachable |}
             (PostAcceptCall b) db in
  transacted call_ref true (effects o) = true
  /\ entries_readable (record db "calls/u1/devices") = true
  /\ reply o = Ok (accepted_reply b).
Proof.
  intros b o. split; [vm_compute; reflexivity|].
  split; [vm_compute; reflexivity|].
  apply (commit_answers_success no_numbers unreachable b db).
  - vm_compute. reflexivity.
  - vm_compute. reflexivity.
Defined.

(** C4, as stated, fails: the transition commits, the read of the device
    directory is rejected, and the reply is the 500 internal error, not
    the success response. *)
Lemma commit_then_internal_error :
  let b := accept_by "d1" "tok" "ch" in
  let o := serve no_numbers directory_unreadable (PostAcceptCall b) db in
  transacted call_ref true (effects o) = true
  /\ reply o = Ok (accept_failed (Rejected "permission_denied"))
  /\ reply o <> Ok (accepted_reply b)
  /\ sends (effects o) = [].
Proof.
  intros b o. vm_compute. split; [reflexivity|]. split; [reflexivity|].
  split; [discriminate|reflexivity].
Qed.

(** Scenario E: only [t2] is told to stop ringing. *)
Lemma only_d2_is_notified :
  let b := accept_by "d1" "tok" "ch" in
  let o := serve no_numbers delivering (PostAcceptCall b) db in
  map tokens (sends (effects o)) = [[JStr "t2"]]
  /\ exists toks,
       (forall t, t ∈ toks <->
          exists d, d ∈ keys directory /\ JStr "d1" <> JStr d
            /\ truthy (get_prop (get_prop directory d) "fcmToken") = true
            /\ t = get_prop (get_prop directory d) "fcmToken")
       /\ (forall m, m ∈ sends (effects o) -> tokens m = toks).
Proof.
  intros b o. split; [vm_compute; reflexivity|].
  destruct (fanout_targets no_numbers delivering b db)
    as (toks & Hmem & _ & Hs & _).
  - vm_compute. reflexivity.
  - reflexivity.
  - vm_compute. reflexivity.
  - exists toks. split; [exact Hmem|exact Hs].
Defined.

(** A request without [channel]. *)
Lemma missing_channel :
  let b := JObj [("callId", JStr "c1"); ("acceptedByDeviceId", JStr "d1");
                 ("currentUid", JStr "u1"); ("token", JStr "tok")] in
  serve no_numbers delivering (PostAcceptCall b) db
  = {| reply := Ok invalid_accept; store_after := db; effects := [] |}.
Proof.
  intros b. apply (accept_missing_field no_numbers delivering b db "channel").
  - reflexivity.
  - unfold accept_fields. do 4 apply list_elem_of_further.
    apply list_elem_of_here.
  - reflexivity.
Defined.

(** Tokens [tA] and [tB]: the first is reached, the second is not. *)
Lemma one_of_two_delivered :
  let b := ring (JArr [JStr "tA"; JStr "tB"]) in
  let o := serve no_numbers partly_delivering
             (PostSendRingingNotification b) db in
  ringing_valid b = true
  /\ reply o
     = Ok {| status := 200;
             json := RingingSent "Ringing notifications sent successfully"
                       1 1 [delivered; undelivered] |}.
Proof.
  intros b o. split; [vm_compute; reflexivity|].
  apply (ringing_partial_failure no_numbers partly_delivering b db
           {| responses := [delivered; undelivered] |}).
  - vm_compute. reflexivity.
  - reflexivity.
Defined.

(** Scenario D: an empty [fcmTokens] array. *)
Lemma empty_tokens_rejected :
  let b := ring (JArr []) in
  serve no_numbers delivering (PostSendRingingNotification b) db
  = {| reply := Ok invalid_tokens; store_after := db; effects := [] |}.
Proof.
  intros b.
  apply (ringing_requires_tokens no_numbers delivering b db).
  - reflexivity.
  - right. right. reflexivity.
Defined.

(** The same accept with another token and channel dispatches the same
    message. *)
Lemma same_message_other_passthrough :
  let b1 := accept_by "d1" "tok" "ch" in
  let b2 := accept_by "d1" "another-token" "another-channel" in
  let o1 := serve no_numbers delivering (PostAcceptCall b1) db in
  let o2 := serve no_numbers delivering (PostAcceptCall b2) db in
  transacted call_ref true (effects o1) = true
  /\ transacted call_ref true (effects o2) = true
  /\ sends (effects o1) = sends (effects o2)
  /\ reply o1 <> reply o2.
Proof.
  intros b1 b2 o1 o2.
  split; [vm_compute; reflexivity|]. split; [vm_compute; reflexivity|].
  split.
  - apply (ring_ended_ignores_passthrough no_numbers delivering db b1 b2).
    + reflexivity.
    + reflexivity.
    + reflexivity.
    + vm_compute. reflexivity.
    + vm_compute. reflexivity.
  - vm_compute. discriminate.
Defined.
End Runs.

(* ================================================================== *)
(** ** More on POST /acceptCall *)
(* ================================================================== *)

Lemma collect_tokens_world allDevices acc ks pre w :
  exists r, collect_tokens allDevices acc ks pre w = (r, w).
Proof.
  revert pre. induction ks as [|k ks IH]; intros pre; cbn [collect_tokens].
  - by eexists.
  - destruct (negb (strict_eq (JStr k) acc)); [|apply IH].
    unfold bind, prop. destruct (nullish (get_prop allDevices k)).
    + by eexists.
    + cbn [ret]. destruct (truthy _); apply IH.
Qed.

(** Whatever the directory holds, the block reads nothing, runs no
    transaction and dispatches at most once. *)
Lemma notify_others_shape env callId acc allDevices w :
  exists r tl,
    notify_others env callId acc allDevices w
    = (r, {| store := store w; trace := trace w ++ tl |})
    /\ reads tl = [] /\ length (sends tl) <= 1 /\ transactions tl = [].
Proof.
  unfold notify_others. destruct (truthy allDevices).
  2:{ exists (Ok tt), []. destruct w. rewrite app_nil_r.
      split_and!; simpl; (done || lia). }
  destruct (collect_tokens_world allDevices acc (keys allDevices) [] w)
    as [[toks|e] Hc]; unfold bind at 1; rewrite Hc.
  2:{ exists (Throw e), []. destruct w. rewrite app_nil_r.
      split_and!; simpl; (done || lia). }
  destruct (0 <? length toks).
  2:{ exists (Ok tt), []. destruct w. rewrite app_nil_r.
      split_and!; simpl; (done || lia). }
  unfold try_catch, bind, send.
  destruct (sendEachForMulticast env _) as [r|e]; cbn.
  - eexists _, [_; _]. rewrite <- List.app_assoc.
    split_and!; simpl; (done || lia).
  - eexists _, [_; _]. unfold console, emit. cbn.
    rewrite <- List.app_assoc. split_and!; simpl; (done || lia).
Qed.

Section AcceptShape.
Variable number_to_string : float -> string.

(** After a commit: one read of the device directory, at most one dispatch,
    and a reply that is the success response or the internal error. *)
Lemma after_commit_shape env body w :
  exists r tl,
    after_commit number_to_string env body w
    = (Ok r, {| store := store w; trace := trace w ++ tl |})
    /\ (r = accepted_reply body \/ exists e, r = accept_failed e)
    /\ reads tl
       = [devicesRef number_to_string (get_prop body "currentUid")]
    /\ length (sends tl) <= 1
    /\ transactions tl = [].
Proof.
  unfold try_catch, bind at 1, once.
  destruct (once_rejects env) as [e|].
  - cbn. eexists _, [_; _]. rewrite <- List.app_assoc.
    split_and!; simpl; first [done | lia | by eauto].
  - cbn [emit bind ret store trace].
    generalize (default JNull
                  (store w !! devicesRef number_to_string
                                (get_prop body "currentUid"))).
    intros allDevices.
    set (w1 := {| store := _; trace := _ |}).
    destruct (notify_others_shape env (get_prop body "callId")
                (get_prop body "acceptedByDeviceId") allDevices w1)
      as (r & tl & Hn & Hr & Hs & Ht).
    unfold bind at 1. rewrite Hn. subst w1. cbn [store trace].
    destruct r as [[]|e]; cbn.
    + eexists _, (_ :: tl). rewrite <- List.app_assoc.
      split_and!; simpl; rewrite ?Hr; first [done | lia | by eauto].
    + eexists _, (_ :: tl ++ [_]). rewrite <- !List.app_assoc.
      unfold reads, sends, transactions in *.
      split_and!; [done|by eauto|..]; cbn; rewrite omap_app; cbn;
        rewrite ?Hr, ?Ht, ?app_nil_r; first [done | exact Hs].
Qed.

(** The committed case of [serve_accept_cases], with the shape of what
    follows the transaction. *)
Lemma serve_accept_committed env body db :
  let o := serve number_to_string env (PostAcceptCall body) db in
  let ref := activeCallRef number_to_string (get_prop body "currentUid") in
  let acc := get_prop body "acceptedByDeviceId" in
  fields_present accept_fields body = true ->
  transaction_rejects env = None ->
  ringing_for (get_prop body "callId") (record db ref) = true ->
  exists text r tl,
    o = {| reply := Ok r;
           store_after := <[ref := accepted acc (record db ref)]> db;
           effects := [EvConsole Log text None; EvTransaction ref (Ok true)]
                      ++ tl |}
    /\ (r = accepted_reply body \/ exists e, r = accept_failed e)
    /\ reads tl
       = [devicesRef number_to_string (get_prop body "currentUid")]
    /\ length (sends tl) <= 1
    /\ transactions tl = [].
Proof.
  intros o ref acc Hf Hr Hn. subst o. unfold serve, route.
  destruct (acceptCall_committed number_to_string env body
              {| store := db; trace := [] |} Hf Hr Hn) as [text ->].
  cbn [store trace app].
  set (w1 := {| store := _; trace := _ |}).
  destruct (after_commit_shape env body w1) as (r & tl & -> & Hrest).
  by exists text, r, tl.
Qed.
End AcceptShape.

Lemma fields_absent fields body :
  fields_present fields body = false <->
  exists k, k ∈ fields /\ truthy (get_prop body k) = false.
Proof.
  unfold fields_present. induction fields as [|f fields IH]; simpl.
  - split; [done|]. by intros (k & ?%elem_of_nil & _).
  - rewrite andb_false_iff, IH. split.
    + intros [H|(k & Hk & H)].
      * exists f. split; [apply list_elem_of_here|done].
      * exists k. split; [by apply list_elem_of_further|done].
    + intros (k & [->|Hk]%elem_of_cons & H); [by left|].
      right. by exists k.
Qed.

Lemma sendRingingNotification_refused env body w :
  nullish body = false ->
  ringing_valid body = false ->
  sendRingingNotification env body w
  = (Ok (if truthy (get_prop body "fcmTokens")
            && is_array (get_prop body "fcmTokens")
            && negb (length (elements (get_prop body "fcmTokens")) =? 0)
         then incomplete_ringing else invalid_tokens), w).
Proof.
  unfold ringing_valid, sendRingingNotification, destructure. intros -> Hv.
  unfold bind at 1. unfold ret at 1.
  destruct (truthy (get_prop body "fcmTokens")); [|done].
  destruct (is_array (get_prop body "fcmTokens")); [|done].
  destruct (length (elements (get_prop body "fcmTokens")) =? 0); [done|].
  cbn [andb negb orb] in *. by rewrite ringing_guard, Hv.
Qed.

Section AcceptTable.
Variable number_to_string : float -> string.

Abbreviation serve_ := (serve number_to_string).
Abbreviation call_record body :=
  (activeCallRef number_to_string (get_prop body "currentUid")).
Abbreviation call_devices body :=
  (devicesRef number_to_string (get_prop body "currentUid")).

(** X1.  An accept request with a body is answered with the 400 validation
    error exactly when one of its five fields is falsy -- not only when it
    is missing: [null], [false], [0] and the empty string are refused the
    same way -- and then nothing is attempted. *)
Theorem accept_refuses_exactly_falsy env body db :
  let o := serve_ env (PostAcceptCall body) db in
  nullish body = false ->
  ((exists k, k ∈ accept_fields /\ truthy (get_prop body k) = false) ->
   o = {| reply := Ok invalid_accept; store_after := db; effects := [] |})
  /\ (reply o = Ok invalid_accept ->
      exists k, k ∈ accept_fields /\ truthy (get_prop body k) = false).
Proof.
  intros o Hb. split.
  - intros Hk. apply fields_absent in Hk. subst o. unfold serve, route.
    by rewrite acceptCall_invalid.
  - intros Hreply. apply fields_absent.
    destruct (fields_present accept_fields body) eqn:Hf; [exfalso|done].
    destruct (serve_accept_cases number_to_string env body db)
      as [(Hf' & _)|[(e & _ & _ & Ho)|[(_ & _ & _ & text & Ho)
          |(_ & Hr & Hn & _)]]]; try fold o in Ho.
    + congruence.
    + rewrite Ho in Hreply. discriminate Hreply.
    + rewrite Ho in Hreply. discriminate Hreply.
    + destruct (serve_accept_committed number_to_string env body db Hf Hr Hn)
        as (text & r & tl & Ho & [->|[e ->]] & _); fold o in Ho;
        rewrite Ho in Hreply; discriminate Hreply.
Qed.

(** X3.  When the database rejects the transaction of a valid accept
    request, the reply is the 500 internal error carrying that error; the
    database is unchanged, the device directory is not read and nothing is
    dispatched. *)
Theorem accept_transaction_rejected env body db e :
  let o := serve_ env (PostAcceptCall body) db in
  fields_present accept_fields body = true ->
  transaction_rejects env = Some e ->
  reply o = Ok (accept_failed e)
  /\ store_after o = db
  /\ transactions (effects o) = [(call_record body, Throw e)]
  /\ reads (effects o) = []
  /\ sends (effects o) = [].
Proof.
  intros o Hf Hr. subst o. unfold serve, route.
  by rewrite (acceptCall_rejected _ _ _ _ e Hf Hr).
Qed.

(** X4.  Serving an accept request runs at most one transaction, reads at
    most one location -- the device directory of [currentUid] -- and
    dispatches at most one message; the read and the dispatch only ever
    follow a committed transition, and a dispatch only ever follows the
    read. *)
Theorem fanout_only_after_commit env body db :
  let o := serve_ env (PostAcceptCall body) db in
  length (transactions (effects o)) <= 1
  /\ (reads (effects o) = [] \/ reads (effects o) = [call_devices body])
  /\ length (sends (effects o)) <= 1
  /\ (reads (effects o) <> [] ->
      transacted (call_record body) true (effects o) = true)
  /\ (sends (effects o) <> [] -> reads (effects o) = [call_devices body]).
Proof.
  intros o.
  destruct (serve_accept_cases number_to_string env body db)
    as [(_ & _ & He & _)|[(e & _ & _ & Ho)|[(_ & _ & _ & text & Ho)
        |(Hf & Hr & Hn & _)]]]; try fold o in He; try fold o in Ho.
  - rewrite He. simpl. split_and!; first [done | lia | by left | by right].
  - rewrite Ho. simpl. split_and!; first [done | lia | by left | by right].
  - rewrite Ho. simpl. split_and!; first [done | lia | by left | by right].
  - destruct (serve_accept_committed number_to_string env body db Hf Hr Hn)
      as (text & r & tl & Ho & _ & Hreads & Hsends & Htx). fold o in Ho.
    rewrite Ho. cbn [effects]. unfold transacted.
    rewrite transactions_app, sends_app. unfold reads in *.
    rewrite omap_app, Hreads, Htx. cbn. rewrite String.eqb_refl.
    split_and!; first [done | lia | by left | by right].
Qed.

(** X5.  An accept request never commits unless all five fields are
    truthy, the database answered the transaction, and the record the
    database held was there with a [callId] equal ([===]) to the requested
    one and [status] ['ringing']: no other request ever moves a record to
    ['in_progress']. *)
Theorem accept_commits_only_ringing env body db :
  let o := serve_ env (PostAcceptCall body) db in
  transacted (call_record body) true (effects o) = true ->
  fields_present accept_fields body = true
  /\ transaction_rejects env = None
  /\ truthy (record db (call_record body)) = true
  /\ strict_eq (get_prop (record db (call_record body)) "callId")
               (get_prop body "callId") = true
  /\ get_prop (record db (call_record body)) "status" = JStr "ringing"
  /\ get_prop (record (store_after o) (call_record body)) "status"
     = JStr "in_progress".
Proof.
  intros o Hc.
  destruct (accept_commit_inv number_to_string env body db Hc)
    as (Hf & Hr & Hn & text & tl & r & _ & _ & Ho).
  pose proof Hn as Hn'. unfold ringing_for in Hn.
  apply andb_true_iff in Hn as [Hn Hs]. apply andb_true_iff in Hn as [Ht Hi].
  apply strict_eq_str in Hs. split_and!; [done..|].
  fold o in Ho. rewrite Ho. cbn [store_after]. unfold record at 1.
  rewrite lookup_insert_eq. cbn [default from_option id].
  destruct (status_found_object _ _ Hs) as [props Hp]. rewrite Hp.
  rewrite get_set_prop_other by done. apply get_set_prop_same.
Qed.

End AcceptTable.

(* ================================================================== *)
(** ** What the handlers read *)
(* ================================================================== *)

Section ReadsOnly.
Context {locs : list string}.

Lemma reads_ret {A} (a : A) : reads_only locs (ret a).
Proof. by intros w1 w2 Ht Hs. Qed.

Lemma reads_throw {A} e : reads_only locs (@throw A e).
Proof. by intros w1 w2 Ht Hs. Qed.

Lemma reads_bind {A B} (m : M A) (k : A -> M B) :
  reads_only locs m -> (forall a, reads_only locs (k a)) ->
  reads_only locs (bind m k).
Proof.
  intros Hm Hk w1 w2 Ht Hs. unfold bind.
  destruct (Hm w1 w2 Ht Hs) as (Hr & Ht' & Hs').
  destruct (m w1) as [[a1|e1] w1'], (m w2) as [[a2|e2] w2']; simpl in *;
    try discriminate Hr.
  - injection Hr as ->. by apply Hk.
  - by injection Hr as ->.
Qed.

Lemma reads_try_catch {A} (m : M A) (h : exn -> M A) :
  reads_only locs m -> (forall e, reads_only locs (h e)) ->
  reads_only locs (try_catch m h).
Proof.
  intros Hm Hh w1 w2 Ht Hs. unfold try_catch.
  destruct (Hm w1 w2 Ht Hs) as (Hr & Ht' & Hs').
  destruct (m w1) as [[a1|e1] w1'], (m w2) as [[a2|e2] w2']; simpl in *;
    try discriminate Hr.
  - by injection Hr as ->.
  - injection Hr as ->. by apply Hh.
Qed.

Lemma reads_emit e : reads_only locs (emit e).
Proof. intros w1 w2 Ht Hs. simpl. by rewrite Ht. Qed.

Lemma reads_console lvl text arg : reads_only locs (console lvl text arg).
Proof. apply reads_emit. Qed.

Lemma reads_if {A} (b : bool) (m1 m2 : M A) :
  reads_only locs m1 -> reads_only locs m2 ->
  reads_only locs (if b then m1 else m2).
Proof. by destruct b. Qed.

Lemma reads_prop v k : reads_only locs (prop v k).
Proof. unfold prop. apply reads_if; [apply reads_throw|apply reads_ret]. Qed.

Lemma reads_destructure v : reads_only locs (destructure v).
Proof.
  unfold destructure. apply reads_if; [apply reads_throw|apply reads_ret].
Qed.

Lemma reads_send env m : reads_only locs (send env m).
Proof.
  unfold send. destruct (sendEachForMulticast env m).
  - apply reads_bind; [apply reads_emit|intros; apply reads_ret].
  - apply reads_bind; [apply reads_emit|intros; apply reads_throw].
Qed.

Lemma reads_once env ref : ref ∈ locs -> reads_only locs (once env ref).
Proof.
  intros Hin. unfold once. destruct (once_rejects env).
  - apply reads_bind; [apply reads_emit|intros; apply reads_throw].
  - intros w1 w2 Ht Hs. simpl. by rewrite Ht, (Hs ref Hin).
Qed.

Lemma reads_transaction env ref update :
  ref ∈ locs -> (forall cur, reads_only locs (update cur)) ->
  reads_only locs (transaction env ref update).
Proof.
  intros Hin Hu. unfold transaction. destruct (transaction_rejects env).
  - apply reads_bind; [apply reads_emit|intros; apply reads_throw].
  - intros w1 w2 Ht Hs. rewrite (Hs ref Hin).
    destruct (Hu (default JNull (store w2 !! ref)) w1 w2 Ht Hs)
      as (Hr & Ht' & Hs').
    destruct (update _ w1) as [[[new1|]|e1] w1'],
             (update _ w2) as [[[new2|]|e2] w2']; simpl in *;
      try discriminate Hr.
    + injection Hr as ->. rewrite Ht'. split_and!; [done..|].
      intros p Hp. destruct (decide (ref = p)) as [->|Hne].
      * by rewrite !lookup_insert_eq.
      * rewrite !lookup_insert_ne by done. by apply Hs'.
    + by rewrite Ht'.
    + injection Hr as ->. by rewrite Ht'.
Qed.

Lemma reads_collect_tokens allDevices acc ks toks :
  reads_only locs (collect_tokens allDevices acc ks toks).
Proof.
  revert toks. induction ks as [|k ks IH]; intros toks; simpl.
  - apply reads_ret.
  - apply reads_if; [|done].
    apply reads_bind; [apply reads_prop|intros tok]. by apply reads_if.
Qed.

Lemma reads_notify_others env callId acc allDevices :
  reads_only locs (notify_others env callId acc allDevices).
Proof.
  unfold notify_others. apply reads_if; [|apply reads_ret].
  apply reads_bind; [apply reads_collect_tokens|intros toks].
  apply reads_if; [|apply reads_ret].
  apply reads_try_catch.
  - apply reads_bind; [apply reads_send|intros r]. apply reads_console.
  - intros e. apply reads_console.
Qed.

Lemma reads_sendRingingNotification env body :
  reads_only locs (sendRingingNotification env body).
Proof.
  unfold sendRingingNotification.
  apply reads_bind; [apply reads_destructure|intros _].
  apply reads_if; [apply reads_ret|]. apply reads_if; [apply reads_ret|].
  apply reads_try_catch.
  - apply reads_bind; [apply reads_send|intros r].
    apply reads_bind; [apply reads_console|intros _].
    apply reads_bind; [|intros; apply reads_ret].
    apply reads_if; [apply reads_console|apply reads_ret].
  - intros e. apply reads_bind; [apply reads_console|intros; apply reads_ret].
Qed.
End ReadsOnly.

Section ReadsAccept.
Variable number_to_string : float -> string.

Lemma reads_accept_update locs callId acc cur :
  reads_only locs (accept_update number_to_string callId acc cur).
Proof.
  unfold accept_update. repeat apply reads_if;
    (apply reads_bind; [apply reads_console|intros; apply reads_ret]).
Qed.

Lemma reads_acceptCall locs env body :
  activeCallRef number_to_string (get_prop body "currentUid") ∈ locs ->
  devicesRef number_to_string (get_prop body "currentUid") ∈ locs ->
  reads_only locs (acceptCall number_to_string env body).
Proof.
  intros Href Hdref. unfold acceptCall.
  apply reads_bind; [apply reads_destructure|intros _].
  apply reads_if; [apply reads_ret|].
  apply reads_try_catch.
  - apply reads_bind.
    + apply reads_transaction; [done|]. intros cur. apply reads_accept_update.
    + intros res. apply reads_if.
      * apply reads_if; apply reads_ret.
      * apply reads_bind; [by apply reads_once|intros allDevices].
        apply reads_bind; [apply reads_notify_others|intros; apply reads_ret].
  - intros e. apply reads_bind; [apply reads_console|intros; apply reads_ret].
Qed.

(** X6.  What serving an accept request replies and which external calls
    it makes depend on the database through two locations only, the call
    record and the device directory of [currentUid]: two databases that
    agree there give the same reply and the same calls, and agree there
    afterwards. *)
Theorem accept_reads_two_locations env body (db1 db2 : gmap string value) :
  let ref := activeCallRef number_to_string (get_prop body "currentUid") in
  let dref := devicesRef number_to_string (get_prop body "currentUid") in
  let o1 := serve number_to_string env (PostAcceptCall body) db1 in
  let o2 := serve number_to_string env (PostAcceptCall body) db2 in
  db1 !! ref = db2 !! ref ->
  db1 !! dref = db2 !! dref ->
  reply o1 = reply o2
  /\ effects o1 = effects o2
  /\ store_after o1 !! ref = store_after o2 !! ref
  /\ store_after o1 !! dref = store_after o2 !! dref.
Proof.
  intros ref dref o1 o2 H1 H2.
  destruct (reads_acceptCall [ref; dref] env body
              ltac:(apply list_elem_of_here)
              ltac:(apply list_elem_of_further, list_elem_of_here)
              {| store := db1; trace := [] |} {| store := db2; trace := [] |}
              eq_refl) as (Hr & Ht & Hs).
  { intros p [->|[->|?%elem_of_nil]%elem_of_cons]%elem_of_cons; done. }
  subst o1 o2. unfold serve, route.
  destruct (acceptCall _ env body {| store := db1 |}) as [r1 w1].
  destruct (acceptCall _ env body {| store := db2 |}) as [r2 w2].
  simpl in *. split_and!; [done..| |].
  - apply Hs, list_elem_of_here.
  - apply Hs, list_elem_of_further, list_elem_of_here.
Qed.
End ReadsAccept.

(* ================================================================== *)
(** ** More on POST /sendRingingNotification *)
(* ================================================================== *)

Section RingingMore.
Variable number_to_string : float -> string.

Abbreviation ring_ env body db :=
  (serve number_to_string env (PostSendRingingNotification body) db).

(** X7.  The ringing endpoint neither reads nor writes the database: the
    database is the same afterwards, no transaction is run and no location
    is read, and the reply and the external calls are the same whatever the
    database holds. *)
Theorem ringing_ignores_database env body (db1 db2 : gmap string value) :
  store_after (ring_ env body db1) = db1
  /\ transactions (effects (ring_ env body db1)) = []
  /\ reads (effects (ring_ env body db1)) = []
  /\ reply (ring_ env body db1) = reply (ring_ env body db2)
  /\ effects (ring_ env body db1) = effects (ring_ env body db2).
Proof.
  destruct (@reads_sendRingingNotification [] env body
              {| store := db1; trace := [] |} {| store := db2; trace := [] |}
              eq_refl) as (Hr & Ht & _).
  { by intros p ?%elem_of_nil. }
  unfold serve, route.
  assert (Hshape :
    store (sendRingingNotification env body {| store := db1; trace := [] |}).2
    = db1
    /\ transactions
         (trace (sendRingingNotification env body
                   {| store := db1; trace := [] |}).2) = []
    /\ reads
         (trace (sendRingingNotification env body
                   {| store := db1; trace := [] |}).2) = []).
  { destruct (ringing_valid body) eqn:Hv.
    - rewrite (sendRingingNotification_valid _ _ _ Hv).
      destruct (sendEachForMulticast env _) as [r|e]; cbn; [|done].
      by destruct (count_occ Bool.bool_dec (map success (responses r)) false).
    - destruct (nullish body) eqn:Hb.
      + unfold sendRingingNotification, destructure, bind. by rewrite Hb.
      + by rewrite (sendRingingNotification_refused _ _ _ Hb Hv). }
  destruct (sendRingingNotification env body {| store := db1 |}) as [r1 w1].
  destruct (sendRingingNotification env body {| store := db2 |}) as [r2 w2].
  simpl in *. by destruct Hshape as (-> & -> & ->).
Qed.

(** X8.  A ringing request whose [fcmTokens] is a non-empty array but one
    of whose [callerId], [callId], [type], [channel], [token] is falsy is
    answered with the second 400 validation error, and nothing is
    dispatched; that reply is given in no other case. *)
Theorem ringing_refuses_incomplete env body db :
  nullish body = false ->
  ((exists t ts, get_prop body "fcmTokens" = JArr (t :: ts)) ->
   (exists k, k ∈ ringing_fields /\ truthy (get_prop body k) = false) ->
   ring_ env body db
   = {| reply := Ok incomplete_ringing; store_after := db; effects := [] |})
  /\ (reply (ring_ env body db) = Ok incomplete_ringing ->
      (exists t ts, get_prop body "fcmTokens" = JArr (t :: ts))
      /\ exists k, k ∈ ringing_fields /\ truthy (get_prop body k) = false).
Proof.
  intros Hb. split.
  - intros (t & ts & Htok) Hk. apply fields_absent in Hk.
    assert (Hv : ringing_valid body = false).
    { unfold ringing_valid. by rewrite Hk, andb_false_r. }
    unfold serve, route.
    rewrite (sendRingingNotification_refused _ _ _ Hb Hv), Htok. done.
  - unfold serve, route. destruct (ringing_valid body) eqn:Hv.
    + rewrite (sendRingingNotification_valid _ _ _ Hv).
      by destruct (sendEachForMulticast env _).
    + rewrite (sendRingingNotification_refused _ _ _ Hb Hv).
      unfold ringing_valid in Hv.
      destruct (truthy (get_prop body "fcmTokens")
                && is_array (get_prop body "fcmTokens")
                && negb (length (elements (get_prop body "fcmTokens")) =? 0))
        eqn:Htok; [|done].
      intros _. split.
      * apply andb_true_iff in Htok as [Htok Hlen].
        apply andb_true_iff in Htok as [_ Harr].
        destruct (get_prop body "fcmTokens") as [| | | | |[|t ts]|];
          try done. by exists t, ts.
      * apply fields_absent. by destruct (fields_present _ _).
Qed.

(** X9.  A valid ringing request makes exactly one dispatch, whose message
    carries [type], [callerId], [callId], [channel] and [token] as they
    came and goes to the elements of [fcmTokens] as they came, in their
    order; when the push transport throws, the reply is the 500 error
    carrying what was thrown. *)
Theorem ringing_dispatches_request env body db :
  let o := ring_ env body db in
  ringing_valid body = true ->
  exists m,
    sends (effects o) = [m]
    /\ data m = [("type", get_prop body "type");
                 ("callerId", get_prop body "callerId");
                 ("callId", get_prop body "callId");
                 ("channel", get_prop body "channel");
                 ("token", get_prop body "token")]
    /\ JArr (tokens m) = get_prop body "fcmTokens"
    /\ forall e,
         sendEachForMulticast env m = Throw e ->
         reply o
         = Ok {| status := 500;
                 json := ErrorDetails "Failed to send ringing notifications"
                           e |}.
Proof.
  intros o Hv. exists (ringing_message_of body). subst o.
  unfold serve, route. rewrite (sendRingingNotification_valid _ _ _ Hv).
  split_and!.
  - destruct (sendEachForMulticast env _) as [r|e]; cbn; [|done].
    by destruct (count_occ Bool.bool_dec (map success (responses r)) false).
  - done.
  - unfold ringing_valid in Hv. cbn [tokens ringingMessage].
    apply andb_true_iff in Hv as [Hv _]. apply andb_true_iff in Hv as [Hv _].
    apply andb_true_iff in Hv as [_ Harr].
    by destruct (get_prop body "fcmTokens").
  - by intros e ->.
Qed.
End RingingMore.

(* ================================================================== *)
(** ** More on the stop-ringing fan-out *)
(* ================================================================== *)

Lemma assoc_nodup (props : list (string * value)) k v :
  NoDup props.*1 -> (k, v) ∈ props -> assoc k props = Some v.
Proof.
  induction props as [|[k' x] props IH]; simpl; intros Hnd Hin.
  - by apply elem_of_nil in Hin.
  - apply NoDup_cons in Hnd as [Hk' Hnd].
    apply elem_of_cons in Hin as [[= -> ->]|Hin].
    + by rewrite String.eqb_refl.
    + destruct (String.eqb_spec k' k) as [->|Hne]; [|by apply IH].
      destruct Hk'. apply list_elem_of_fmap. by exists (k, v).
Qed.

(** On entries that the directory holds under their keys, the loop is the
    comprehension [fanout_list]. *)
Lemma collect_tokens_list allDevices acc (entries : list (string * value))
    pre w :
  (forall k v, (k, v) ∈ entries ->
               get_prop allDevices k = v /\ nullish v = false) ->
  collect_tokens allDevices acc entries.*1 pre w
  = (Ok (pre ++ omap (fun kv =>
                        if negb (strict_eq (JStr kv.1) acc)
                           && truthy (get_prop kv.2 "fcmToken")
                        then Some (get_prop kv.2 "fcmToken")
                        else None) entries), w).
Proof.
  revert pre. induction entries as [|[k v] entries IH]; intros pre Hent.
  - simpl. by rewrite app_nil_r.
  - assert (Hent' : forall k0 v0, (k0, v0) ∈ entries ->
                      get_prop allDevices k0 = v0 /\ nullish v0 = false).
    { intros k0 v0 Hin. apply Hent. by apply list_elem_of_further. }
    destruct (Hent k v (list_elem_of_here _ _)) as [Hget Hnn].
    cbn [fmap list_fmap collect_tokens omap list_omap fst snd].
    destruct (strict_eq (JStr k) acc); cbn [negb andb]; [by apply IH|].
    unfold bind, prop. rewrite Hget, Hnn. cbn [ret].
    destruct (truthy (get_prop v "fcmToken")); [|by apply IH].
    rewrite IH by done. by rewrite <- List.app_assoc.
Qed.

Lemma collect_tokens_fanout_list allDevices acc w :
  entries_readable allDevices = true ->
  NoDup (keys allDevices) ->
  collect_tokens allDevices acc (keys allDevices) [] w
  = (Ok (fanout_list allDevices acc), w).
Proof.
  intros Hread Hnd. unfold keys, fanout_list.
  rewrite (collect_tokens_list allDevices acc (own_props allDevices) [] w);
    [done|].
  intros k v Hin. split.
  - unfold get_prop. by rewrite (assoc_nodup _ k v Hnd Hin).
  - unfold entries_readable in Hread. rewrite forallb_forall in Hread.
    apply list_elem_of_In, Hread in Hin. by apply negb_true_iff in Hin.
Qed.

Lemma omap_length_le {A B} (f : A -> option B) (l : list A) :
  length (omap f l) <= length l.
Proof.
  induction l as [|x l IH]; cbn; [done|].
  destruct (f x); cbn; lia.
Qed.

(** The loop reads nothing but the directory it is given. *)
Lemma collect_tokens_pure allDevices acc ks pre :
  exists r, forall w, collect_tokens allDevices acc ks pre w = (r, w).
Proof.
  revert pre. induction ks as [|k ks IH]; intros pre; cbn [collect_tokens].
  - by eexists.
  - destruct (negb (strict_eq (JStr k) acc)); [|apply IH].
    unfold bind, prop. destruct (nullish (get_prop allDevices k)).
    + by eexists.
    + cbn [ret]. destruct (truthy _); apply IH.
Qed.

Section FanoutMore.
Variable number_to_string : float -> string.

(** After a commit and a read of the directory that the database answers,
    the messages dispatched are decided by what the loop collects. *)
Lemma committed_sends env body db toks :
  let o := serve number_to_string env (PostAcceptCall body) db in
  let ref := activeCallRef number_to_string (get_prop body "currentUid") in
  let dref := devicesRef number_to_string (get_prop body "currentUid") in
  transacted ref true (effects o) = true ->
  once_rejects env = None ->
  (forall w, collect_tokens (record db dref)
               (get_prop body "acceptedByDeviceId")
               (keys (record db dref)) [] w = (Ok toks, w)) ->
  reply o = Ok (accepted_reply body)
  /\ sends (effects o)
     = match toks with
       | [] => []
       | _ :: _ =>
           [ringEndedMessage (get_prop body "callId")
              (get_prop body "acceptedByDeviceId") toks]
       end.
Proof.
  intros o ref dref Hc Hr Hcollect.
  destruct (accept_commit_inv number_to_string env body db Hc)
    as (Hf & _ & Hn & text & tl & r & Hac & _ & Ho).
  fold o in Ho. rewrite Ho. cbn [reply effects].
  revert Hac. cbv zeta. unfold try_catch, bind at 1, once. rewrite Hr.
  cbn [emit bind ret store trace].
  assert (Hdir : default JNull
                   (<[ref := accepted (get_prop body "acceptedByDeviceId")
                               (record db ref)]> db !! dref)
                 = record db dref).
  { unfold record. by rewrite lookup_insert_ne by apply refs_differ. }
  fold ref dref. rewrite Hdir.
  set (w1 := {| store := _; trace := _ |}).
  destruct (notify_others_run env (get_prop body "callId")
              (get_prop body "acceptedByDeviceId") (record db dref) toks w1
              (Hcollect w1)) as (tl' & Hn' & Hs & _).
  unfold bind at 1. rewrite Hn'. subst w1. cbn.
  intros [= <- Htl]. split; [done|]. by subst tl.
Qed.

(** X10.  After a commit, with the directory read and its entries readable
    values under distinct keys, the [tokens] of the one [ring_ended]
    message dispatched are the tokens of the eligible entries in the order
    of the directory, one token per entry: a token that two devices share
    is listed twice.  With no eligible entry nothing is dispatched. *)
Theorem fanout_in_directory_order env body db :
  let o := serve number_to_string env (PostAcceptCall body) db in
  let ref := activeCallRef number_to_string (get_prop body "currentUid") in
  let dref := devicesRef number_to_string (get_prop body "currentUid") in
  let acc := get_prop body "acceptedByDeviceId" in
  transacted ref true (effects o) = true ->
  once_rejects env = None ->
  entries_readable (record db dref) = true ->
  NoDup (keys (record db dref)) ->
  map tokens (sends (effects o))
  = match fanout_list (record db dref) acc with
    | [] => []
    | _ :: _ => [fanout_list (record db dref) acc]
    end
  /\ sends (effects o)
     = match fanout_list (record db dref) acc with
       | [] => []
       | _ :: _ =>
           [{| data := [("type", JStr "ring_ended");
                        ("callId", get_prop body "callId");
                        ("acceptedByDeviceId", acc)];
               tokens := fanout_list (record db dref) acc;
               priority := "high";
               android_priority := "high";
               content_available := true |}]
       end
  /\ length (fanout_list (record db dref) acc)
     <= length (keys (record db dref)).
Proof.
  intros o ref dref acc Hc Hr Hread Hnd.
  assert (Hs : sends (effects o)
               = match fanout_list (record db dref) acc with
                 | [] => []
                 | _ :: _ =>
                     [ringEndedMessage (get_prop body "callId") acc
                        (fanout_list (record db dref) acc)]
                 end).
  { apply (committed_sends env body db); [done..|].
    intros w. by apply collect_tokens_fanout_list. }
  split_and!.
  - rewrite Hs. by destruct (fanout_list (record db dref) acc).
  - exact Hs.
  - unfold fanout_list, keys. rewrite length_fmap. apply omap_length_le.
Qed.

(** X11.  The accepting device is left out of the fan-out by comparing the
    directory keys, which are strings, with [acceptedByDeviceId] as it came
    ([!==]): when the request gives the device id as anything but a string
    (a number, say), no entry is left out, and every device with a token,
    the accepting one included, is told to stop ringing. *)
Theorem nonstring_device_id_excludes_nobody env body db d :
  let o := serve number_to_string env (PostAcceptCall body) db in
  let ref := activeCallRef number_to_string (get_prop body "currentUid") in
  let dref := devicesRef number_to_string (get_prop body "currentUid") in
  let token := get_prop (get_prop (record db dref) d) "fcmToken" in
  transacted ref true (effects o) = true ->
  once_rejects env = None ->
  entries_readable (record db dref) = true ->
  (forall s, get_prop body "acceptedByDeviceId" <> JStr s) ->
  d ∈ keys (record db dref) ->
  truthy token = true ->
  exists m, sends (effects o) = [m] /\ token ∈ tokens m.
Proof.
  intros o ref dref token Hc Hr Hread Hacc Hd Htok.
  destruct (collect_tokens_pure (record db dref)
              (get_prop body "acceptedByDeviceId") (keys (record db dref)) [])
    as [r Hpure].
  destruct (collect_tokens_run (record db dref)
              (get_prop body "acceptedByDeviceId") (keys (record db dref)) []
              {| store := db; trace := [] |}) as (toks & Hrun & Hmem).
  { intros k Hk _. by apply readable_entry. }
  rewrite Hpure in Hrun. injection Hrun as ->.
  assert (Hin : token ∈ toks).
  { apply Hmem. exists d. split_and!; [done| |done..].
    apply strict_eq_key_iff, Hacc. }
  destruct (committed_sends env body db toks Hc Hr Hpure) as [_ Hs].
  fold o in Hs. destruct toks as [|t toks]; [by apply elem_of_nil in Hin|].
  eexists. split; [exact Hs|done].
Qed.
End FanoutMore.

(* ================================================================== *)
(** ** Sequences of accept requests *)
(* ================================================================== *)

Section Sequences.
Variable number_to_string : float -> string.

Lemma serve_all_lookup db0 reqs j oj env req :
  serve_all number_to_string db0 reqs !! j = Some oj ->
  reqs !! j = Some (env, req) ->
  exists db, oj = serve number_to_string env req db.
Proof.
  revert db0 j. induction reqs as [|[env' req'] reqs IH]; intros db0 j Hj Hr.
  - by destruct j.
  - destruct j as [|j]; simpl in *.
    + injection Hj as <-. injection Hr as -> ->. by eexists.
    + by eapply IH.
Qed.

(** After a commit on the record at [ref], no later request of the
    sequence commits there. *)
Lemma later_not_committed db0 reqs i j oi oj ref :
  serve_all number_to_string db0 reqs !! i = Some oi ->
  serve_all number_to_string db0 reqs !! j = Some oj ->
  i < j ->
  transacted ref true (effects oi) = true ->
  transacted ref true (effects oj) = false.
Proof.
  revert db0 i j. induction reqs as [|[env req] reqs IH];
    intros db0 i j Hi Hj Hlt Hc.
  - by destruct i.
  - destruct j as [|j]; [lia|]. simpl in Hj.
    destruct i as [|i]; simpl in Hi.
    + injection Hi as <-.
      assert (Hin : get_prop
                      (record (store_after
                                 (serve number_to_string env req db0)) ref)
                      "status" = JStr "in_progress").
      { destruct req as [body|body|].
        - destruct (quiet_sendRingingNotification env body
                      {| store := db0; trace := [] |})
            as (tl & _ & Ht & Htl).
          unfold serve, route in Hc.
          destruct (sendRingingNotification env body _) as [r w].
          simpl in *. subst. unfold transacted in Hc.
          by rewrite (no_transactions _ Htl) in Hc.
        - by apply commit_in_progress.
        - done. }
      by destruct (serve_all_in_progress number_to_string _ reqs ref Hin
                     j oj Hj) as (_ & Hno & _).
    + apply (IH _ i j Hi Hj); [lia|done].
Qed.

(** X15.  Once an accept attempt has committed on a call record, no later
    accept request for that record reads the device directory or dispatches
    anything: the devices that lost are told to stop ringing by the request
    that won, and by no other. *)
Theorem no_fanout_after_acceptance db0 reqs i j oi oj env body :
  let ref := activeCallRef number_to_string (get_prop body "currentUid") in
  serve_all number_to_string db0 reqs !! i = Some oi ->
  serve_all number_to_string db0 reqs !! j = Some oj ->
  i < j ->
  reqs !! j = Some (env, PostAcceptCall body) ->
  transacted ref true (effects oi) = true ->
  sends (effects oj) = [] /\ reads (effects oj) = [].
Proof.
  intros ref Hi Hj Hlt Hreq Hc.
  pose proof (later_not_committed db0 reqs i j oi oj ref Hi Hj Hlt Hc) as Hno.
  destruct (serve_all_lookup db0 reqs j oj env _ Hj Hreq) as [db ->].
  destruct (serve_accept_cases number_to_string env body db)
    as [(_ & _ & He & _)|[(e & _ & _ & Ho)|[(_ & _ & _ & text & Ho)
        |(_ & _ & _ & text & tl & r & _ & Htl & Ho)]]].
  - by rewrite He.
  - by rewrite Ho.
  - by rewrite Ho.
  - rewrite Ho in Hno. cbn [effects] in Hno. fold ref in Hno.
    rewrite transacted_single, String.eqb_refl in Hno; [done|].
    eapply Forall_impl; [exact Htl|]. apply fanout_no_transaction.
Qed.

End Sequences.

(* ================================================================== *)
(** ** Properties of the start-up *)
(* ================================================================== *)

Module StartupProperties.
Import Startup.

Section StartupTheorems.
Variable number_to_string : float -> string.

(** Settles a goal about the trace of a start-up once the events of the
    loading step are known to hold no listen and no initialisation. *)
Ltac settle_trace Hl Hi :=
  repeat match goal with
         | H : _ <> [] |- _ =>
             cbn in H; rewrite !omap_app, ?Hl, ?Hi in H; cbn in H
         end;
  cbn; rewrite ?omap_app, ?Hl, ?Hi, ?last_app; cbn;
  rewrite ?last_app; cbn; done.

(** X16.  The service account key of the environment comes first: when
    [FIREBASE_SERVICE_ACCOUNT_KEY] is set (and not empty) the file system
    is never looked at, whether the key parses or not; when it is not set,
    or is the empty string, the key is never parsed, the file next to the
    script is looked for once and is loaded only if it is there. *)
Theorem key_of_environment_first h :
  let tr := (main number_to_string h).2 in
  let path := serviceAccountPath h in
  (set (FIREBASE_SERVICE_ACCOUNT_KEY h) = true ->
   file_accesses tr = []
   /\ exists text, FIREBASE_SERVICE_ACCOUNT_KEY h = Some text
                   /\ head tr = Some (EvParse text))
  /\ (set (FIREBASE_SERVICE_ACCOUNT_KEY h) = false ->
      file_accesses tr
      = EvExistsSync path
        :: (if existsSync h path then [EvRequire path] else [])
      /\ forall text, EvParse text ∉ tr).
Proof.
  intros tr path. subst tr path.
  unfold main, initialize, load_service_account.
  destruct (set (FIREBASE_SERVICE_ACCOUNT_KEY h)) eqn:Hset; split; try done;
    intros _.
  - destruct (FIREBASE_SERVICE_ACCOUNT_KEY h) as [text|] eqn:Hkey; [|done].
    cbn [default from_option id]. split.
    + repeat case_match; simplify_eq; done.
    + exists text. split; [done|]. repeat case_match; simplify_eq; done.
  - split.
    + repeat case_match; simplify_eq; done.
    + intros text. repeat case_match; simplify_eq; cbn; intros Hin;
        repeat (apply elem_of_cons in Hin as [Hin|Hin]; [discriminate Hin|]);
        by apply elem_of_nil in Hin.
Qed.

(** X17.  The server listens only once the Admin SDK has been initialised,
    exactly once, with the service account that was loaded and the
    database URL of the environment, and then on the text of [PORT], or on
    the number 3000 when [PORT] is not set or empty.  Every exception in
    the initialisation (no service account, [cert] or [initializeApp]
    throwing) ends the process with exit code 1 as its last act, whatever
    [admin.database()] would have done, and an exception of
    [admin.database()] after a successful initialisation ends it too: in
    neither case does it listen. *)
Theorem listens_only_initialized h :
  let outcome := (main number_to_string h).1 in
  let tr := (main number_to_string h).2 in
  let url := FIREBASE_DATABASE_URL h in
  let loaded := (load_service_account h).1 in
  (forall message,
     loaded = inl message ->
     outcome = Exited 1 /\ last tr = Some (EvExit 1)
     /\ initializations tr = [] /\ listens tr = [])
  /\ (forall account message,
        loaded = inr account ->
        cert h account = Some message ->
        outcome = Exited 1 /\ last tr = Some (EvExit 1)
        /\ initializations tr = [] /\ listens tr = [])
  /\ (forall account message,
        loaded = inr account ->
        cert h account = None ->
        initializeApp h account url = Some message ->
        outcome = Exited 1 /\ last tr = Some (EvExit 1)
        /\ initializations tr = [(account, url)] /\ listens tr = [])
  /\ (forall account message,
        loaded = inr account ->
        cert h account = None ->
        initializeApp h account url = None ->
        database h = Some message ->
        outcome = Crashed message
        /\ initializations tr = [(account, url)] /\ listens tr = [])
  /\ (forall account,
        loaded = inr account ->
        cert h account = None ->
        initializeApp h account url = None ->
        database h = None ->
        let p := match PORT h with
                 | Some text =>
                     if String.eqb text "" then JNum 3000%float else JStr text
                 | None => JNum 3000%float
                 end in
        outcome = Listening p
        /\ initializations tr = [(account, url)] /\ listens tr = [p])
  /\ (listens tr <> [] ->
      exists account,
        loaded = inr account /\ cert h account = None
        /\ initializeApp h account url = None /\ database h = None).
Proof.
  intros outcome tr url loaded. subst outcome tr url loaded.
  unfold main, initialize.
  assert (Hload : listens (load_service_account h).2 = []
                  /\ initializations (load_service_account h).2 = []).
  { unfold load_service_account. destruct (set _); [done|].
    by destruct (existsSync h _). }
  destruct Hload as [Hl Hi].
  assert (Hport : port h
                  = match PORT h with
                    | Some text =>
                        if String.eqb text "" then JNum 3000%float
                        else JStr text
                    | None => JNum 3000%float
                    end).
  { unfold port, set. destruct (PORT h) as [text|]; [|done].
    by destruct (String.eqb text ""). }
  unfold listens, initializations in *.
  destruct (load_service_account h) as [[m|account] evs];
    cbn [fst snd] in *.
  - split_and!; intros; simplify_eq; settle_trace Hl Hi.
  - destruct (cert h account) as [mc|] eqn:Hcert.
    { split_and!; intros; simplify_eq; settle_trace Hl Hi. }
    destruct (initializeApp h account (FIREBASE_DATABASE_URL h)) as [mi|]
      eqn:Hinit.
    { split_and!; intros; simplify_eq; settle_trace Hl Hi. }
    destruct (database h) as [md|] eqn:Hdb.
    { split_and!; intros; simplify_eq; settle_trace Hl Hi. }
    split_and!; intros; simplify_eq; try settle_trace Hl Hi.
    + cbv zeta. rewrite Hport. settle_trace Hl Hi.
    + by exists account.
Qed.

(** X18.  Without usable credentials the process does not start: with no
    key in the environment and no file next to the script it exits with
    code 1 after reporting that the key was not found, and with a key that
    does not parse it exits with code 1 after reporting the parse error
    even when the file is there; in both cases the SDK is never touched. *)
Theorem no_credentials_no_server h :
  (set (FIREBASE_SERVICE_ACCOUNT_KEY h) = false ->
   existsSync h (serviceAccountPath h) = false ->
   main number_to_string h
   = (Exited 1,
      [EvExistsSync (serviceAccountPath h);
       EvError "ERROR: Failed to initialize Firebase Admin SDK:"
         "Firebase service account key not found. Set FIREBASE_SERVICE_ACCOUNT_KEY env var or create firebase-service-account.json";
       EvExit 1]))
  /\ (forall text message,
        FIREBASE_SERVICE_ACCOUNT_KEY h = Some text ->
        text <> EmptyString ->
        JSON_parse h text = inl message ->
        main number_to_string h
        = (Exited 1,
           [EvParse text;
            EvError "ERROR: Failed to initialize Firebase Admin SDK:" message;
            EvExit 1])).
Proof.
  unfold main, initialize, load_service_account. split.
  - by intros -> ->.
  - intros text message Hkey Hne Hparse. rewrite Hkey. cbn.
    apply String.eqb_neq in Hne. by rewrite Hne, Hparse.
Qed.
End StartupTheorems.
End StartupProperties.

(* ================================================================== *)
(** ** More scenarios, run *)
(* ================================================================== *)

Module MoreRuns.
Import Scenario MoreScenarios Startup.

Abbreviation call_ref := "calls/u1/activeCall"%string.
Abbreviation devices_ref := "calls/u1/devices"%string.

(** An empty [token] is refused like a missing one. *)
Lemma empty_token_refused :
  let b := accept_by "d1" "" "ch" in
  nullish b = false
  /\ serve no_numbers delivering (PostAcceptCall b) db
     = {| reply := Ok invalid_accept; store_after := db; effects := [] |}.
Proof.
  intros b. split; [reflexivity|].
  apply (accept_refuses_exactly_falsy no_numbers delivering b db).
  - reflexivity.
  - exists "token"%string. split; [|reflexivity].
    unfold accept_fields. do 3 apply list_elem_of_further.
    apply list_elem_of_here.
Defined.

(** The database is down when device [d1] accepts. *)
Lemma accept_while_disconnected :
  let b := accept_by "d1" "tok" "ch" in
  let o := serve no_numbers disconnected (PostAcceptCall b) db in
  fields_present accept_fields b = true
  /\ reply o = Ok (accept_failed (Rejected "disconnected"))
  /\ store_after o = db
  /\ sends (effects o) = [].
Proof.
  intros b o. split; [reflexivity|].
  destruct (accept_transaction_rejected no_numbers disconnected b db
              (Rejected "disconnected") eq_refl eq_refl)
    as (Hr & Hs & _ & _ & Hn).
  split; [exact Hr|]. split; [exact Hs|exact Hn].
Defined.

(** The call of user [u2] changes nothing for an accept of user [u1]. *)
Lemma other_user_is_not_read :
  let b := accept_by "d1" "tok" "ch" in
  db !! call_ref = db_two_users !! call_ref
  /\ db !! devices_ref = db_two_users !! devices_ref
  /\ reply (serve no_numbers delivering (PostAcceptCall b) db)
     = reply (serve no_numbers delivering (PostAcceptCall b) db_two_users)
  /\ effects (serve no_numbers delivering (PostAcceptCall b) db)
     = effects (serve no_numbers delivering (PostAcceptCall b) db_two_users).
Proof.
  intros b. split; [vm_compute; reflexivity|].
  split; [vm_compute; reflexivity|].
  destruct (accept_reads_two_locations no_numbers delivering b db
              db_two_users) as (Hr & He & _).
  - vm_compute. reflexivity.
  - vm_compute. reflexivity.
  - split; [exact Hr|exact He].
Defined.

(** A ringing request without [callerId]. *)
Lemma missing_caller_refused :
  nullish ring_without_caller = false
  /\ serve no_numbers delivering
       (PostSendRingingNotification ring_without_caller) db
     = {| reply := Ok incomplete_ringing; store_after := db; effects := [] |}.
Proof.
  split; [reflexivity|].
  apply (ringing_refuses_incomplete no_numbers delivering
           ring_without_caller db).
  - reflexivity.
  - exists (JStr "tA"), []. reflexivity.
  - exists "callerId"%string. split; [|reflexivity]. apply list_elem_of_here.
Defined.

(** The push transport is down when the call starts ringing. *)
Lemma ringing_while_unreachable :
  let b := ring (JArr [JStr "tA"; JStr "tB"]) in
  let o := serve no_numbers undeliverable (PostSendRingingNotification b) db in
  ringing_valid b = true
  /\ reply o
     = Ok {| status := 500;
             json := ErrorDetails "Failed to send ringing notifications"
                       (Rejected "messaging/server-unavailable") |}.
Proof.
  intros b o. split; [vm_compute; reflexivity|].
  destruct (ringing_dispatches_request no_numbers undeliverable b db)
    as (m & _ & _ & _ & Hthrow).
  - vm_compute. reflexivity.
  - apply Hthrow. reflexivity.
Defined.

(** Device [d3], which has no token, accepts: [t1] then [t2], as the
    directory lists them. *)
Lemma directory_order_run :
  let b := accept_by "d3" "tok" "ch" in
  let o := serve no_numbers delivering (PostAcceptCall b) db in
  transacted call_ref true (effects o) = true
  /\ map tokens (sends (effects o)) = [[JStr "t1"; JStr "t2"]].
Proof.
  intros b o. split; [vm_compute; reflexivity|].
  destruct (fanout_in_directory_order no_numbers delivering b db)
    as [Hs _].
  - vm_compute. reflexivity.
  - reflexivity.
  - vm_compute. reflexivity.
  - apply (bool_decide_unpack _). vm_compute. reflexivity.
  - exact Hs.
Defined.

(** Device [d1] itself is told to stop ringing when the accepting device
    names itself by a number. *)
Lemma numeric_device_id_run :
  let o := serve no_numbers delivering (PostAcceptCall accept_by_number) db in
  transacted call_ref true (effects o) = true
  /\ exists m, sends (effects o) = [m] /\ JStr "t1" ∈ tokens m.
Proof.
  intros o. split; [vm_compute; reflexivity|].
  apply (nonstring_device_id_excludes_nobody no_numbers delivering
           accept_by_number db "d1").
  - vm_compute. reflexivity.
  - reflexivity.
  - vm_compute. reflexivity.
  - intros s H. discriminate H.
  - apply list_elem_of_here.
  - reflexivity.
Defined.

(** The accept of [d1] commits: the record was ringing for [c1]. *)
Lemma accept_of_ringing_call :
  let b := accept_by "d1" "tok" "ch" in
  let o := serve no_numbers delivering (PostAcceptCall b) db in
  transacted call_ref true (effects o) = true
  /\ get_prop (record db call_ref) "status" = JStr "ringing"
  /\ get_prop (record (store_after o) call_ref) "status" = JStr "in_progress".
Proof.
  intros b o. split; [vm_compute; reflexivity|].
  destruct (accept_commits_only_ringing no_numbers delivering b db)
    as (_ & _ & _ & _ & Hs & Hp).
  - vm_compute. reflexivity.
  - split; [exact Hs|exact Hp].
Defined.

(** A host with a key in its environment and [PORT] set to 8080. *)
Lemma listens_on_port_8080 :
  (main no_numbers configured_host).1 = Listening (JStr "8080")
  /\ listens (main no_numbers configured_host).2 = [JStr "8080"].
Proof.
  destruct (StartupProperties.listens_only_initialized no_numbers
              configured_host)
    as (_ & _ & _ & _ & H & _).
  destruct (H (JObj [("project_id", JStr "demo")])
              eq_refl eq_refl eq_refl eq_refl) as (Ho & _ & Hl).
  split; [exact Ho|exact Hl].
Defined.

(** A [currentUid] with a dot in it: [db.ref] throws at line 103 and the
    exception leaves the handler; the same request for [u1] is answered. *)
Lemma dotted_uid_escapes :
  let b := JObj [("callId", JStr "c1"); ("acceptedByDeviceId", JStr "d1");
                 ("currentUid", JStr "a.b"); ("token", JStr "tok");
                 ("channel", JStr "ch")] in
  let sdk := Sdk.cold_firebase Sdk.refuses_dot delivering in
  let w := {| store := db; trace := [] |} in
  Sdk.acceptCall no_numbers sdk b w
  = (Throw (Rejected "Reference.child failed: path contains an invalid character"),
     w)
  /\ exists resp w1,
       Sdk.acceptCall no_numbers sdk (accept_by "d1" "tok" "ch") w
       = (Ok resp, w1).
Proof.
  intros b sdk w. split.
  - destruct (accept_answers_past_line_103 no_numbers world sdk b w)
      as [_ H]. destruct (H eq_refl) as (_ & Href & _).
    apply (Href "a.b"%string); reflexivity.
  - destruct (accept_answers_past_line_103 no_numbers world sdk
                (accept_by "d1" "tok" "ch") w) as [_ H].
    destruct (H eq_refl) as (_ & _ & Hok).
    destruct (Hok "u1"%string eq_refl eq_refl) as (resp & w1 & Hrun & _).
    by exists resp, w1.
Defined.

(** After [d1] has accepted, the attempt of [d2] notifies nobody. *)
Lemma late_attempt_is_silent :
  let b1 := accept_by "d1" "tok" "ch" in
  let b2 := accept_by "d2" "tok" "ch" in
  let o1 := serve no_numbers delivering (PostAcceptCall b1) db in
  let o2 := serve no_numbers delivering (PostAcceptCall b2) (store_after o1) in
  transacted call_ref true (effects o1) = true
  /\ sends (effects o1) <> []
  /\ sends (effects o2) = []
  /\ reads (effects o2) = [].
Proof.
  intros b1 b2 o1 o2. split; [vm_compute; reflexivity|].
  split; [vm_compute; discriminate|].
  apply (no_fanout_after_acceptance no_numbers db
           [(delivering, PostAcceptCall b1); (delivering, PostAcceptCall b2)]
           0 1 o1 o2 delivering b2).
  - reflexivity.
  - reflexivity.
  - apply le_n.
  - reflexivity.
  - vm_compute. reflexivity.
Defined.
End MoreRuns.
